(** * Position / offset / span translation of gopls' [span] package

    A shallow embedding of [span/token.go] (the second document of
    [src/gopls/internal/regtest/misc/hover_test.go]): [Range], [NewRange],
    [FileSpan], [position], [positionFromOffset], [offset], [Span.Range],
    [OffsetToLineCol8] and [ToOffset], together with the parts of Go's
    [go/token] package they call.

    Conventions.
    - A Go [int] (and a [token.Pos], which is an [int]) is a [Z]; every
      addition and subtraction on positions, offsets, lines and columns is
      written with its 64-bit two's-complement wrap-around ([GoInt.add],
      [GoInt.sub]).  Slice indices, which the code keeps within the slice,
      are computed in [Z].
    - A Go function returning [(T, error)] returns a pair [T * option error]
      ([None] is the nil error): the value that accompanies an error is kept.
    - A panic (explicit [panic], nil dereference) is the [Panic] outcome.
    - A [*token.File] is an [option token.File]; [None] is the nil pointer. *)

From Stdlib Require Import ZArith List String Bool Lia.
Import ListNotations.
Local Open Scope string_scope.
Local Open Scope Z_scope.

(** ** Machine integers *)

Module GoInt.

Definition minInt : Z := - 2 ^ 63.
Definition maxInt : Z := 2 ^ 63 - 1.

(** Two's-complement reduction of a mathematical integer to an [int]. *)
Definition wrap (z : Z) : Z := (z + 2 ^ 63) mod 2 ^ 64 - 2 ^ 63.

Definition add (a b : Z) : Z := wrap (a + b).
Definition sub (a b : Z) : Z := wrap (a - b).

(** The values an [int] variable can hold. *)
Definition is_int (z : Z) : Prop := minInt <= z <= maxInt.

End GoInt.

(** ** Outcomes: a returned value or a panic *)

Inductive outcome (A : Type) : Type :=
| Ret (a : A)
| Panic (msg : string).
Arguments Ret {A} a.
Arguments Panic {A} msg.

Definition bind {A B : Type} (m : outcome A) (k : A -> outcome B) : outcome B :=
  match m with
  | Ret a => k a
  | Panic msg => Panic msg
  end.

Notation "x <- m ;; k" := (bind m (fun x => k))
  (at level 61, m at next level, right associativity).
Notation "' pat <- m ;; k" := (bind m (fun x => match x with pat => k end))
  (at level 61, pat pattern, m at next level, right associativity).

(** ** Go's [go/token]: files and positions *)

(** Modelled from the spec: the Addressable File of spec §3 and §6 ([base],
    [size], [lineCount], [name], [lineStart], [positionAt], [offsetOf]).  It
    is the [File] of Go's standard [go/token] package, which is not among
    the sources; the definitions follow that package, restricted to what the
    [span] package calls.  [lines] holds the offset of the first byte of
    every line, [infos] the alternative positions recorded by [//line]
    directives. *)

Module token.

Definition Pos : Type := Z.
Definition NoPos : Pos := 0.

(** [func (p Pos) IsValid() bool { return p != NoPos }] *)
Definition IsValid (p : Pos) : bool := negb (p =? NoPos).

Record Position : Type := mkPosition {
  Filename : string;
  Offset : Z;
  Line : Z;
  Column : Z
}.

Record lineInfo : Type := mkLineInfo {
  li_Offset : Z;
  li_Filename : string;
  li_Line : Z;
  li_Column : Z
}.

Record File : Type := mkFile {
  name : string;
  base : Z;
  size : Z;
  lines : list Z;
  infos : list lineInfo
}.

Definition Name (f : File) : string := name f.
Definition Base (f : File) : Z := base f.
Definition Size (f : File) : Z := size f.
Definition LineCount (f : File) : Z := Z.of_nat (List.length (lines f)).

(** Slice indexing [a[i]]; every use below is within bounds. *)
Definition index {A : Type} (a : list A) (i : Z) (d : A) : A :=
  nth (Z.to_nat i) a d.

(** [sort.Search]: the smallest index in [[0, n)] at which [f] holds, by
    bisection.  The loop halves [j - i], so [n] iterations are enough. *)
Fixpoint Search_loop (fuel : nat) (f : Z -> bool) (i j : Z) : Z :=
  match fuel with
  | O => i
  | S fuel' =>
      if i <? j then
        let h := Z.shiftr (i + j) 1 in
        if negb (f h) then Search_loop fuel' f (h + 1) j
        else Search_loop fuel' f i h
      else i
  end.

Definition Search (n : Z) (f : Z -> bool) : Z :=
  Search_loop (Z.to_nat n) f 0 n.

(** [searchInts(a, x)]: the index of the last entry [<= x], or [-1]. *)
Definition searchInts (a : list Z) (x : Z) : Z :=
  Search (Z.of_nat (List.length a)) (fun i => index a i 0 >? x) - 1.

Definition noInfo : lineInfo := mkLineInfo 0 "" 0 0.

Definition searchLineInfos (a : list lineInfo) (x : Z) : Z :=
  Search (Z.of_nat (List.length a)) (fun i => li_Offset (index a i noInfo) >? x) - 1.

(** [func (f *File) LineStart(line int) Pos] *)
Definition LineStart (f : File) (line : Z) : outcome Pos :=
  if line <? 1 then Panic "invalid line number (should be >= 1)"
  else if line >? Z.of_nat (List.length (lines f)) then
    Panic "invalid line number (should be < len(lines))"
  else Ret (GoInt.add (base f) (index (lines f) (line - 1) 0)).

(** [func (f *File) Pos(offset int) Pos] *)
Definition File_Pos (f : File) (offset : Z) : outcome Pos :=
  if offset >? size f then Panic "invalid file offset"
  else Ret (GoInt.add (base f) offset).

(** [func (f *File) unpack(offset int, adjusted bool)] *)
Definition unpack (f : File) (offset : Z) (adjusted : bool) : string * Z * Z :=
  let filename := name f in
  let i := searchInts (lines f) offset in
  let '(line, column) :=
    if i >=? 0 then
      (GoInt.add i 1, GoInt.add (GoInt.sub offset (index (lines f) i 0)) 1)
    else (0, 0) in
  if adjusted && (Z.of_nat (List.length (infos f)) >? 0) then
    let k := searchLineInfos (infos f) offset in
    if k >=? 0 then
      let alt := index (infos f) k noInfo in
      let i' := searchInts (lines f) (li_Offset alt) in
      if i' >=? 0 then
        let d := GoInt.sub line (GoInt.add i' 1) in
        let line' := GoInt.add (li_Line alt) d in
        let column' :=
          if li_Column alt =? 0 then 0
          else if d =? 0 then
            GoInt.add (li_Column alt) (GoInt.sub offset (li_Offset alt))
          else column in
        (li_Filename alt, line', column')
      else (li_Filename alt, line, column)
    else (filename, line, column)
  else (filename, line, column).

(** [func (f *File) position(p Pos, adjusted bool) Position] *)
Definition position (f : File) (p : Pos) (adjusted : bool) : Position :=
  let offset := GoInt.sub p (base f) in
  let '(filename, line, column) := unpack f offset adjusted in
  mkPosition filename offset line column.

(** [func (f *File) PositionFor(p Pos, adjusted bool) Position] *)
Definition PositionFor (f : File) (p : Pos) (adjusted : bool) : outcome Position :=
  if negb (p =? NoPos) then
    if (p <? base f) || (p >? GoInt.add (base f) (size f)) then
      Panic "invalid Pos value"
    else Ret (position f p adjusted)
  else Ret (mkPosition "" 0 0 0).

End token.

(** A nil [*token.File] faults as soon as a method reads one of its fields. *)
Definition deref (tf : option token.File) : outcome token.File :=
  match tf with
  | Some f => Ret f
  | None => Panic "invalid memory address or nil pointer dereference"
  end.

(** ** The [span] package: values *)

(** [type point struct { Line, Column, Offset int }]; an offset of [-1] and a
    line of [0] stand for "not set". *)
Record point : Type := mkPoint {
  Line : Z;
  Column : Z;
  Offset : Z
}.

(** [type span struct { URI URI; Start, End point }] *)
Record span : Type := mkspan {
  URI : string;
  Start : point;
  End_ : point
}.

(** [type Span struct { v span }] *)
Record Span : Type := mkSpan { v : span }.

(** [type Range struct { TokFile *token.File; Start, End token.Pos }] *)
Record Range : Type := mkRange {
  TokFile : option token.File;
  Range_Start : token.Pos;
  Range_End : token.Pos
}.

(** The zero values [point{}], [Span{}] and [Range{}]. *)
Definition zero_point : point := mkPoint 0 0 0.
Definition zero_Span : Span := mkSpan (mkspan "" zero_point zero_point).
Definition zero_Range : Range := mkRange None 0 0.

(** The errors the package builds, one constructor per [fmt.Errorf] or
    [bug.Errorf] call, with the values the message is formatted from. *)
Inductive error : Type :=
| ErrStartPosNotValid                                  (* FileSpan *)
| ErrSpanCrossesFiles (startFilename endFilename : string)
| ErrOffsetBeyondEOF (offset size : Z) (name : string) (* positionFromOffset *)
| ErrInvalidPos (pos lo hi : Z)                        (* offset *)
| BugStartOffsetPastEnd (start : point) (size : Z)     (* Span.Range *)
| BugEndOffsetPastEnd (end_ : point) (size : Z)
| ErrInvalidLine (line : Z)                            (* ToOffset *)
| ErrLineBeyondEOF (line lineMax : Z)
| ErrColumnBeyondEOF
| BugLineNotInFile
| ErrToOffsetColumnBeyondEOF (col : Z)
| ErrInvalidSpan.                                      (* Span.update *)

(** Errors reported through [bug.Errorf]. *)
Definition is_bug (e : error) : bool :=
  match e with
  | BugStartOffsetPastEnd _ _ | BugEndOffsetPastEnd _ _ | BugLineNotInFile => true
  | _ => false
  end.

(** ** The [span] package: [token.go] *)

(** [func NewRange(file *token.File, start, end token.Pos) Range] *)
Definition NewRange (file : option token.File) (start end_ : token.Pos)
  : outcome Range :=
  match file with
  | None => Panic "nil *token.File"
  | Some _ =>
      if negb (token.IsValid start) then Panic "invalid start token.Pos"
      else
        let end_ := if negb (token.IsValid end_) then start else end_ in
        Ret (mkRange file start end_)
  end.

(** [func (r Range) IsPoint() bool] *)
Definition IsPoint (r : Range) : bool := Range_Start r =? Range_End r.

(** [func offset(tf *token.File, pos token.Pos) (int, error)] *)
Definition offset (tf : option token.File) (pos : token.Pos)
  : outcome (Z * option error) :=
  f <- deref tf ;;
  if (pos <? token.Base f) || (pos >? GoInt.add (token.Base f) (token.Size f)) then
    Ret (0, Some (ErrInvalidPos pos (token.Base f)
                    (GoInt.add (token.Base f) (token.Size f))))
  else Ret (GoInt.sub pos (token.Base f), None).

(** [func ToOffset(tf *token.File, line, col int) (int, error)] *)
Definition ToOffset (tf : option token.File) (line col : Z)
  : outcome (Z * option error) :=
  if line <? 1 then Ret (-1, Some (ErrInvalidLine line))
  else
    f <- deref tf ;;
    let lineMax := GoInt.add (token.LineCount f) 1 in
    if line >? lineMax then Ret (-1, Some (ErrLineBeyondEOF line lineMax))
    else if line =? lineMax then
      if col >? 1 then Ret (-1, Some ErrColumnBeyondEOF)
      else Ret (token.Size f, None)
    else
      pos <- token.LineStart f line ;;
      if negb (token.IsValid pos) then Ret (-1, Some BugLineNotInFile)
      else
        let pos := GoInt.add pos (GoInt.sub col 1) in
        if pos >? GoInt.add (token.Base f) (token.Size f) then
          Ret (0, Some (ErrToOffsetColumnBeyondEOF col))
        else offset tf pos.

(** ** The [span] package: [token.go], the functions that call out

    The functions below call code that is not among the sources:
    [safetoken.Position], [URIFromPath] of [uri.go], and [point.clean],
    [span.clean], [Span.WithOffset] and [Point.Offset] of [span.go].  They
    are parameters of the embedding. *)

Section Helpers.

(** [safetoken.Position(tf, pos)] *)
Variable Position : token.File -> token.Pos -> outcome token.Position.

(** [URIFromPath(path)]; [FileSpan] only stores its result. *)
Variable URIFromPath : string -> string.

(** [p.clean()] and [s.clean()], as the value they leave in place. *)
Variable point_clean : point -> point.
Variable span_clean : span -> span.

(** [s.WithOffset(tf)] *)
Variable WithOffset : Span -> option token.File -> outcome (Span * option error).

(** [p.Offset()], for the point inside [s.Start()] or [s.End()]. *)
Variable Point_Offset : point -> outcome Z.

(** [func positionFromOffset(tf *token.File, offset int) (string, int, int, error)] *)
Definition positionFromOffset (tf : option token.File) (offset : Z)
  : outcome (string * Z * Z * option error) :=
  f <- deref tf ;;
  if offset >? token.Size f then
    Ret ("", 0, 0, Some (ErrOffsetBeyondEOF offset (token.Size f) (token.Name f)))
  else
    pos <- token.File_Pos f offset ;;
    p <- Position f pos ;;
    if offset =? token.Size f then
      Ret (token.Filename p, GoInt.add (token.Line p) 1, 1, None)
    else Ret (token.Filename p, token.Line p, token.Column p, None).

(** [func position(tf *token.File, pos token.Pos) (string, int, int, error)] *)
Definition position (tf : option token.File) (pos : token.Pos)
  : outcome (string * Z * Z * option error) :=
  '(off, err) <- offset tf pos ;;
  match err with
  | Some e => Ret ("", 0, 0, Some e)
  | None => positionFromOffset tf off
  end.

(** [func OffsetToLineCol8(tf *token.File, offset int) (int, int, error)] *)
Definition OffsetToLineCol8 (tf : option token.File) (offset : Z)
  : outcome (Z * Z * option error) :=
  '(_, line, col8, err) <- positionFromOffset tf offset ;;
  Ret (line, col8, err).

(** [func FileSpan(file *token.File, start, end token.Pos) (Span, error)] *)
Definition FileSpan (file : option token.File) (start end_ : token.Pos)
  : outcome (Span * option error) :=
  if negb (token.IsValid start) then Ret (zero_Span, Some ErrStartPosNotValid)
  else
    '(startFilename, sline, scol, err) <- position file start ;;
    match err with
    | Some e => Ret (zero_Span, Some e)
    | None =>
        let finish (e : point) :=
          WithOffset
            (mkSpan (span_clean (mkspan (URIFromPath startFilename)
                                   (point_clean (mkPoint sline scol 0))
                                   (point_clean e))))
            file in
        if token.IsValid end_ then
          '(endFilename, eline, ecol, err) <- position file end_ ;;
          match err with
          | Some e => Ret (zero_Span, Some e)
          | None =>
              if negb (String.eqb endFilename startFilename) then
                Ret (zero_Span,
                     Some (ErrSpanCrossesFiles startFilename endFilename))
              else finish (mkPoint eline ecol 0)
          end
        else finish zero_point
    end.

(** [func (r Range) Span() (Span, error)] *)
Definition Range_Span (r : Range) : outcome (Span * option error) :=
  FileSpan (TokFile r) (Range_Start r) (Range_End r).

(** [func (s Span) Range(tf *token.File) (Range, error)] *)
Definition Span_Range (s : Span) (tf : option token.File)
  : outcome (Range * option error) :=
  '(s, err) <- WithOffset s tf ;;
  match err with
  | Some e => Ret (zero_Range, Some e)
  | None =>
      so <- Point_Offset (Start (v s)) ;;
      f <- deref tf ;;
      if so >? token.Size f then
        Ret (zero_Range, Some (BugStartOffsetPastEnd (Start (v s)) (token.Size f)))
      else
        eo <- Point_Offset (End_ (v s)) ;;
        if eo >? token.Size f then
          Ret (zero_Range, Some (BugEndOffsetPastEnd (End_ (v s)) (token.Size f)))
        else
          ps <- token.File_Pos f so ;;
          pe <- token.File_Pos f eo ;;
          Ret (mkRange tf ps pe, None)
  end.

End Helpers.

(** ** The [span] package: the [Point] and [Span] value model

    [span.go], which declares [point.clean], [span.clean], [Point.Offset] and
    [Span.WithOffset], is not among the sources; [FileSpan] and [Span.Range]
    call them. *)

(** Modelled from the spec: [point.hasPosition], absent from src/.  A Point's
    line is [>= 1] once it is supplied (spec §3). *)
Definition hasPosition (p : point) : bool := Line p >? 0.

(** Modelled from the spec: [point.hasOffset], absent from src/.  A Point's
    offset is [>= 0] once it is supplied (spec §3). *)
Definition hasOffset (p : point) : bool := Offset p >=? 0.

(** Modelled from the spec: [point.isValid], absent from src/.  One of
    line/column and offset is supplied (spec §3). *)
Definition isValid (p : point) : bool := hasPosition p || hasOffset p.

Definition point_eqb (p q : point) : bool :=
  (Line p =? Line q) && (Column p =? Column q) && (Offset p =? Offset q).

(** Modelled from the spec: [point.clean], absent from src/.  Normalises a
    Point (spec §4.2 step 4): a line below 1 is "not set", a column below 1
    is the first column of a set line, and a zero offset that contradicts a
    line/column beyond (1,1) is "not set", to be derived on demand. *)
Definition point_clean (p : point) : point :=
  let line := if Line p <? 0 then 0 else Line p in
  let column :=
    if Column p <=? 0 then (if line >? 0 then 1 else 0) else Column p in
  let off :=
    if (Offset p =? 0) && ((line >? 1) || (column >? 1)) then -1 else Offset p in
  mkPoint line column off.

(** Modelled from the spec: [span.clean], absent from src/.  An omitted end
    defaults to the start (spec §3, Span). *)
Definition span_clean (s : span) : span :=
  if negb (isValid (End_ s)) || point_eqb (End_ s) zero_point
  then mkspan (URI s) (Start s) (Start s)
  else s.

(** Modelled from the spec: [Point.Offset], absent from src/.  Reading the
    offset of a Point whose offset was never resolved is a fault (spec §9,
    open question, settled the strict way). *)
Definition Point_Offset (p : point) : outcome Z :=
  if hasOffset p then Ret (Offset p) else Panic "offset not set".

(** Modelled from the spec: [point.updateOffset], absent from src/.  The
    offset is derived from line/column with [ToOffset] (spec §3, §4.4). *)
Definition updateOffset (p : point) (tf : option token.File)
  : outcome (point * option error) :=
  '(off, err) <- ToOffset tf (Line p) (Column p) ;;
  match err with
  | Some e => Ret (p, Some e)
  | None => Ret (mkPoint (Line p) (Column p) off, None)
  end.

(** Modelled from the spec: [Span.WithOffset], absent from src/.  Resolves
    the offsets of a Span against a file (spec §4.2 step 4, §4.3 step 1): an
    invalid Span is refused; offsets that are missing are derived from
    line/column, the end sharing the start's offset when it is the same
    location; offsets already held are kept. *)
Definition WithOffset (s : Span) (tf : option token.File)
  : outcome (Span * option error) :=
  let sv := v s in
  if negb (isValid (Start sv)) then Ret (zero_Span, Some ErrInvalidSpan)
  else if negb (hasOffset (Start sv))
          || (hasPosition (End_ sv) && negb (hasOffset (End_ sv))) then
    '(start, err) <- updateOffset (Start sv) tf ;;
    match err with
    | Some e => Ret (zero_Span, Some e)
    | None =>
        if (Line (End_ sv) =? Line start) && (Column (End_ sv) =? Column start) then
          Ret (mkSpan (mkspan (URI sv) start
                         (mkPoint (Line (End_ sv)) (Column (End_ sv)) (Offset start))),
               None)
        else
          '(end_, err) <- updateOffset (End_ sv) tf ;;
          match err with
          | Some e => Ret (zero_Span, Some e)
          | None => Ret (mkSpan (mkspan (URI sv) start end_), None)
          end
    end
  else Ret (s, None).

(** ** Well-formed files

    What [go/token] maintains for every [File] it hands out:
    [FileSet.AddFile] gives it a base of at least 1 (0 is [NoPos]), a
    non-negative size, and refuses a file whose end would overflow a [Pos];
    [AddLine] and [SetLines] keep the line table strictly increasing and
    within the file, and its first entry, when there is one, is 0. *)

(** Entries strictly increase with the index. *)
Fixpoint increasing (a : list Z) : Prop :=
  match a with
  | x :: (y :: _) as tl => x < y /\ increasing tl
  | _ => True
  end.

Record wf_File (f : token.File) : Prop := mk_wf_File {
  wf_base : 1 <= token.base f;
  wf_size : 0 <= token.size f;
  wf_limit : token.base f + token.size f < GoInt.maxInt;
  wf_increasing : increasing (token.lines f);
  wf_range : Forall (fun x => 0 <= x <= token.size f) (token.lines f);
  wf_first : match token.lines f with
             | [] => token.size f = 0
             | x :: _ => x = 0
             end
}.

(** The positions of a file's address space, [[base, base+size]]. *)
Definition in_file (f : token.File) (p : token.Pos) : Prop :=
  token.base f <= p <= token.base f + token.size f.

(** What the theorems about line and column ask of [safetoken.Position]: on
    the positions of the file it reports the file's own line table, as
    [token.File.PositionFor] does when [//line] directives are ignored. *)
Definition ignores_directives
  (Position : token.File -> token.Pos -> outcome token.Position)
  (f : token.File) : Prop :=
  forall p, in_file f p -> Position f p = token.PositionFor f p false.

(** Modelled from the spec: [safetoken.Position], absent from src/.  The
    file's position lookup (spec §6, [positionAt]) reporting "the real
    (line, column)" of a position (spec §4.2): [token.File.PositionFor] with
    [//line] directives ignored. *)
Definition Position_plain (f : token.File) (p : token.Pos)
  : outcome token.Position :=
  token.PositionFor f p false.

(** ** Sample files

    The spec's scenario: the 28 bytes of a two-line [main.go], then a later
    generation of the same file cut to 10 bytes, and a file whose second
    line carries a [//line other.y:7] directive. *)
Definition file28 : token.File := token.mkFile "main.go" 1 28 [0; 13] [].
Definition file10 : token.File := token.mkFile "main.go" 1 10 [0] [].

(** A stand-in for [URIFromPath] on absolute slash-separated paths. *)
Definition URIFromPath_unix (path : string) : string := "file://" ++ path.

(** The Span of positions 14 to 20 of [file28] (line 2, columns 1 to 7), as
    [FileSpan] resolves it against that generation of the file. *)
Definition span_of_file28 : Span :=
  mkSpan (mkspan "file://main.go" (mkPoint 2 1 13) (mkPoint 2 7 19)).

(** * Properties *)

(** ** The spec's scenario, evaluated *)

Example scenario_offset_0 :
  OffsetToLineCol8 Position_plain (Some file28) 0 = Ret (1, 1, None).
Proof. reflexivity. Qed.

Example scenario_offset_13 :
  OffsetToLineCol8 Position_plain (Some file28) 13 = Ret (2, 1, None).
Proof. reflexivity. Qed.

Example scenario_offset_28 :
  OffsetToLineCol8 Position_plain (Some file28) 28 = Ret (3, 1, None).
Proof. reflexivity. Qed.

Example scenario_line_1 : ToOffset (Some file28) 1 1 = Ret (0, None).
Proof. reflexivity. Qed.

Example scenario_line_0 :
  ToOffset (Some file28) 0 1 = Ret (-1, Some (ErrInvalidLine 0)).
Proof. reflexivity. Qed.

Example scenario_line_100 :
  ToOffset (Some file28) 100 1 = Ret (-1, Some (ErrLineBeyondEOF 100 3)).
Proof. reflexivity. Qed.

Example scenario_span :
  FileSpan Position_plain URIFromPath_unix point_clean span_clean WithOffset
    (Some file28) 14 20
  = Ret (span_of_file28, None).
Proof. reflexivity. Qed.

Example scenario_stale :
  Span_Range WithOffset Point_Offset span_of_file28 (Some file10)
  = Ret (zero_Range, Some (BugStartOffsetPastEnd (mkPoint 2 1 13) 10)).
Proof. reflexivity. Qed.

Example scenario_nil_file :
  NewRange None 1 1 = Panic "nil *token.File".
Proof. reflexivity. Qed.

(** A column so large that the position overflows: the error is the one of
    [offset], and the offset returned with it is still 0. *)
Example scenario_column_overflow :
  ToOffset (Some file28) 2 GoInt.maxInt
  = Ret (0, Some (ErrInvalidPos (GoInt.minInt + 12) 1 29)).
Proof. reflexivity. Qed.

(** ** Arithmetic that stays within an [int] does not wrap *)

Lemma wrap_id (z : Z) : GoInt.is_int z -> GoInt.wrap z = z.
Proof.
  unfold GoInt.is_int, GoInt.wrap, GoInt.minInt, GoInt.maxInt.
  intros H. rewrite Z.mod_small; lia.
Qed.

Lemma add_id (a b : Z) : GoInt.is_int (a + b) -> GoInt.add a b = a + b.
Proof. apply wrap_id. Qed.

Lemma sub_id (a b : Z) : GoInt.is_int (a - b) -> GoInt.sub a b = a - b.
Proof. apply wrap_id. Qed.

Lemma wrap_is_int (z : Z) : GoInt.is_int (GoInt.wrap z).
Proof.
  unfold GoInt.is_int, GoInt.wrap, GoInt.minInt, GoInt.maxInt.
  pose proof (Z.mod_pos_bound (z + 2 ^ 63) (2 ^ 64)). lia.
Qed.

(** One overflow: a sum just above [maxInt] comes back negative. *)
Lemma wrap_overflow (z : Z) :
  GoInt.maxInt < z <= 2 * GoInt.maxInt + 1 -> GoInt.wrap z = z - 2 ^ 64.
Proof.
  unfold GoInt.wrap, GoInt.maxInt. intros H.
  replace (z + 2 ^ 63) with ((z - 2 ^ 63) + 1 * 2 ^ 64) by lia.
  rewrite Z.mod_add by lia. rewrite Z.mod_small; lia.
Qed.

(** ** Bisection *)

Lemma Search_loop_spec (f : Z -> bool) :
  forall (fuel : nat) (i j : Z),
    0 <= i <= j ->
    j - i <= Z.of_nat fuel ->
    (forall a b, i <= a <= b -> b < j -> f a = true -> f b = true) ->
    let r := token.Search_loop fuel f i j in
    i <= r <= j /\
    (forall k, i <= k < r -> f k = false) /\
    (forall k, r <= k < j -> f k = true).
Proof.
  induction fuel as [|fuel IH]; intros i j Hij Hfuel Hmono; simpl.
  - repeat split; intros; lia.
  - destruct (Z.ltb_spec i j) as [Hlt|Hge].
    2:{ repeat split; intros; lia. }
    assert (Hh : i <= Z.shiftr (i + j) 1 < j).
    { rewrite Z.shiftr_div_pow2 by lia. change (2 ^ 1) with 2.
      pose proof (Z.div_mod (i + j) 2 ltac:(lia)).
      pose proof (Z.mod_pos_bound (i + j) 2 ltac:(lia)). lia. }
    set (h := Z.shiftr (i + j) 1) in *.
    destruct (f h) eqn:Hfh; simpl.
    + destruct (IH i h) as (Hr & Hlo & Hhi); try lia.
      { intros a b Hab Hb. apply Hmono; lia. }
      repeat split; try lia; auto.
      intros k Hk. destruct (Z.lt_ge_cases k h) as [Hkh|Hkh].
      * apply Hhi; lia.
      * apply (Hmono h k); auto; lia.
    + destruct (IH (h + 1) j) as (Hr & Hlo & Hhi); try lia.
      { intros a b Hab Hb. apply Hmono; lia. }
      repeat split; try lia; auto.
      intros k Hk. destruct (Z.lt_ge_cases k (h + 1)) as [Hkh|Hkh].
      * destruct (f k) eqn:Hfk; auto.
        rewrite (Hmono k h) in Hfh; try discriminate; auto; lia.
      * apply Hlo; lia.
Qed.

(** ** Line tables *)

Lemma increasing_tail (x : Z) (a : list Z) : increasing (x :: a) -> increasing a.
Proof. destruct a; simpl; tauto. Qed.

Lemma increasing_head (x : Z) (a : list Z) :
  increasing (x :: a) -> Forall (fun y => x < y) a.
Proof.
  revert x. induction a as [|y a IH]; intros x H; constructor.
  - simpl in H. tauto.
  - destruct H as [Hxy H]. specialize (IH y H).
    eapply Forall_impl; [|exact IH]. simpl. intros; lia.
Qed.

Lemma increasing_index (a : list Z) :
  increasing a ->
  forall i j, 0 <= i -> i < j -> j < Z.of_nat (List.length a) ->
              token.index a i 0 < token.index a j 0.
Proof.
  unfold token.index.
  induction a as [|x a IH]; intros Hinc i j Hi Hij Hj; simpl in Hj; [lia|].
  destruct (Z.to_nat j) as [|nj] eqn:Ej; [lia|].
  assert (Hnj : nth nj a 0 = nth (Z.to_nat (j - 1)) a 0) by (f_equal; lia).
  destruct (Z.to_nat i) as [|ni] eqn:Ei; simpl.
  - pose proof (increasing_head _ _ Hinc) as Hall.
    rewrite Forall_forall in Hall. apply Hall. apply nth_In. lia.
  - rewrite Hnj. replace ni with (Z.to_nat (i - 1)) by lia.
    apply IH; try lia. eapply increasing_tail; eauto.
Qed.

(** A strictly increasing table over [[lo, hi]] has at most [hi - lo + 1]
    entries. *)
Lemma increasing_length (hi : Z) (a : list Z) :
  forall lo, increasing a ->
    Forall (fun x => lo <= x <= hi) a ->
    Z.of_nat (List.length a) <= Z.max 0 (hi - lo + 1).
Proof.
  induction a as [|x a IH]; intros lo Hinc Hall; simpl List.length; [lia|].
  inversion Hall as [|? ? Hx Htl]; subst.
  assert (Htl' : Forall (fun y => lo + 1 <= y <= hi) a).
  { pose proof (increasing_head _ _ Hinc) as Hh.
    rewrite Forall_forall in *. intros y Hy.
    specialize (Hh y Hy). specialize (Htl y Hy). simpl in *. lia. }
  specialize (IH (lo + 1) (increasing_tail _ _ Hinc) Htl'). lia.
Qed.

(** [searchInts] on an increasing table: the result [r] splits the table
    into the entries [<= x] (indices up to [r]) and the entries [> x]. *)
Lemma searchInts_spec (a : list Z) (x : Z) :
  increasing a ->
  let r := token.searchInts a x in
  -1 <= r < Z.of_nat (List.length a) /\
  (forall k, 0 <= k <= r -> token.index a k 0 <= x) /\
  (forall k, r < k < Z.of_nat (List.length a) -> x < token.index a k 0).
Proof.
  intros Hinc. unfold token.searchInts, token.Search.
  set (n := Z.of_nat (List.length a)).
  destruct (Search_loop_spec (fun i => token.index a i 0 >? x) (Z.to_nat n) 0 n)
    as (Hr & Hlo & Hhi); try lia.
  { intros i j Hij Hj Hi. apply Z.gtb_lt in Hi. apply Z.gtb_lt.
    destruct (Z.eq_dec i j) as [->|Hne]; auto.
    pose proof (increasing_index a Hinc i j). lia. }
  cbv zeta. repeat split; try lia.
  - intros k Hk. specialize (Hlo k ltac:(lia)).
    destruct (Z.gtb_spec (token.index a k 0) x); [discriminate|lia].
  - intros k Hk. specialize (Hhi k ltac:(lia)). apply Z.gtb_lt in Hhi. lia.
Qed.

(** ** The [go/token] primitives on a well-formed file *)

Ltac cmp_lia :=
  repeat first
    [ rewrite Z.gtb_ltb | rewrite Z.geb_leb
    | match goal with
      | |- context [?a <? ?b] =>
          first [ replace (a <? b) with true by (symmetry; apply Z.ltb_lt; lia)
                | replace (a <? b) with false by (symmetry; apply Z.ltb_ge; lia) ]
      | |- context [?a <=? ?b] =>
          first [ replace (a <=? b) with true by (symmetry; apply Z.leb_le; lia)
                | replace (a <=? b) with false by (symmetry; apply Z.leb_gt; lia) ]
      | |- context [?a =? ?b] =>
          first [ replace (a =? b) with true by (symmetry; apply Z.eqb_eq; lia)
                | replace (a =? b) with false by (symmetry; apply Z.eqb_neq; lia) ]
      end ].

Lemma wf_is_int (f : token.File) (z : Z) :
  wf_File f -> - (token.base f + token.size f) - 1 <= z <= token.base f + token.size f + 1 ->
  GoInt.is_int z.
Proof.
  intros [] ?. unfold GoInt.is_int, GoInt.minInt, GoInt.maxInt in *. lia.
Qed.

Lemma LineCount_bound (f : token.File) :
  wf_File f -> 0 <= token.LineCount f <= token.size f + 1.
Proof.
  intros Hwf. unfold token.LineCount.
  pose proof (increasing_length (token.size f) (token.lines f) 0
                (wf_increasing f Hwf) (wf_range f Hwf)).
  pose proof (wf_size f Hwf). lia.
Qed.

Lemma line_entry_range (f : token.File) (i : Z) :
  wf_File f -> 0 <= i < token.LineCount f ->
  0 <= token.index (token.lines f) i 0 <= token.size f.
Proof.
  intros Hwf Hi. pose proof (wf_range f Hwf) as Hall.
  rewrite Forall_forall in Hall. apply Hall.
  unfold token.index. apply nth_In. unfold token.LineCount in Hi. lia.
Qed.

Lemma File_Pos_ok (f : token.File) (o : Z) :
  wf_File f -> 0 <= o <= token.size f ->
  token.File_Pos f o = Ret (token.base f + o).
Proof.
  intros Hwf Ho. unfold token.File_Pos. cmp_lia.
  rewrite add_id; auto. apply (wf_is_int f); auto. destruct Hwf; lia.
Qed.

Lemma base_plus_size (f : token.File) :
  wf_File f ->
  GoInt.add (token.base f) (token.size f) = token.base f + token.size f.
Proof.
  intros Hwf. apply add_id. apply (wf_is_int f); auto. destruct Hwf; lia.
Qed.

Lemma offset_in (f : token.File) (p : token.Pos) :
  wf_File f -> in_file f p ->
  offset (Some f) p = Ret (p - token.base f, None).
Proof.
  intros Hwf Hp. unfold in_file in Hp. unfold offset, token.Base, token.Size; simpl.
  rewrite base_plus_size by auto. cmp_lia. simpl.
  rewrite sub_id; auto. apply (wf_is_int f); auto. destruct Hwf; lia.
Qed.

Lemma offset_out (f : token.File) (p : token.Pos) :
  wf_File f -> ~ in_file f p ->
  offset (Some f) p
  = Ret (0, Some (ErrInvalidPos p (token.base f) (token.base f + token.size f))).
Proof.
  intros Hwf Hp. unfold in_file in Hp. unfold offset, token.Base, token.Size; simpl.
  rewrite base_plus_size by auto.
  destruct (Z.ltb_spec p (token.base f)); simpl; auto.
  rewrite Z.gtb_ltb. cmp_lia. reflexivity.
Qed.

Lemma lineMax_ok (f : token.File) :
  wf_File f -> GoInt.add (token.LineCount f) 1 = token.LineCount f + 1.
Proof.
  intros Hwf. apply add_id. pose proof (LineCount_bound f Hwf).
  apply (wf_is_int f); auto. destruct Hwf; lia.
Qed.

(** ** [ToOffset], path by path *)

Lemma ToOffset_eof (f : token.File) (col : Z) :
  wf_File f -> col <= 1 ->
  ToOffset (Some f) (token.LineCount f + 1) col = Ret (token.size f, None).
Proof.
  intros Hwf Hcol. pose proof (LineCount_bound f Hwf).
  unfold ToOffset. cmp_lia. simpl. rewrite lineMax_ok by auto. cmp_lia.
  reflexivity.
Qed.

Lemma LineStart_ok (f : token.File) (line : Z) :
  wf_File f -> 1 <= line <= token.LineCount f ->
  token.LineStart f line
  = Ret (token.base f + token.index (token.lines f) (line - 1) 0).
Proof.
  intros Hwf Hl. unfold token.LineStart. unfold token.LineCount in Hl. cmp_lia.
  rewrite add_id; auto.
  pose proof (line_entry_range f (line - 1) Hwf ltac:(unfold token.LineCount; lia)).
  apply (wf_is_int f); auto. destruct Hwf; lia.
Qed.

Lemma ToOffset_line (f : token.File) (line col : Z) :
  wf_File f -> 1 <= line <= token.LineCount f ->
  0 <= token.index (token.lines f) (line - 1) 0 + (col - 1) <= token.size f ->
  ToOffset (Some f) line col
  = Ret (token.index (token.lines f) (line - 1) 0 + (col - 1), None).
Proof.
  intros Hwf Hl Hc.
  pose proof (line_entry_range f (line - 1) Hwf ltac:(lia)) as He.
  pose proof (wf_base f Hwf). pose proof (wf_limit f Hwf).
  unfold ToOffset. cmp_lia. simpl. rewrite lineMax_ok by auto. cmp_lia.
  rewrite LineStart_ok by auto. simpl.
  unfold token.IsValid, token.NoPos. cmp_lia. simpl.
  unfold token.Base, token.Size. rewrite base_plus_size by auto.
  rewrite (sub_id col 1) by (apply (wf_is_int f); auto; lia).
  rewrite add_id by (apply (wf_is_int f); auto; lia).
  cmp_lia. rewrite offset_in by (auto; unfold in_file; lia).
  do 2 f_equal. lia.
Qed.

(** ** Line and column of an offset *)

Lemma unpack_plain (f : token.File) (o : Z) :
  wf_File f -> 0 <= o <= token.size f -> token.lines f <> [] ->
  exists r,
    0 <= r < token.LineCount f /\
    token.index (token.lines f) r 0 <= o /\
    (o = token.size f -> r = token.LineCount f - 1) /\
    token.unpack f o false
    = (token.name f, r + 1, o - token.index (token.lines f) r 0 + 1).
Proof.
  intros Hwf Ho Hne.
  destruct (searchInts_spec (token.lines f) o (wf_increasing f Hwf))
    as (Hr & Hle & Hgt).
  set (r := token.searchInts (token.lines f) o) in *.
  fold (token.LineCount f) in Hr, Hgt.
  assert (H0 : 0 <= r).
  { destruct (Z.lt_ge_cases r 0) as [Hneg|]; auto.
    pose proof (wf_first f Hwf) as Hfirst.
    destruct (token.lines f) as [|x tl] eqn:El; [congruence|]. subst x.
    specialize (Hgt 0). unfold token.LineCount in Hgt. rewrite El in Hgt.
    simpl List.length in Hgt. unfold token.index in Hgt. simpl in Hgt. lia. }
  pose proof (LineCount_bound f Hwf) as Hlc.
  pose proof (line_entry_range f r Hwf ltac:(lia)) as He.
  pose proof (wf_base f Hwf). pose proof (wf_limit f Hwf).
  exists r. repeat split; try lia.
  - apply Hle; lia.
  - intros ->. destruct (Z.lt_ge_cases r (token.LineCount f - 1)); [|lia].
    specialize (Hgt (r + 1) ltac:(lia)).
    pose proof (line_entry_range f (r + 1) Hwf ltac:(lia)). lia.
  - unfold token.unpack. fold r. simpl andb. cbv iota. cmp_lia.
    specialize (Hle r ltac:(lia)).
    rewrite (add_id r 1) by (apply (wf_is_int f); auto; lia).
    rewrite sub_id by (apply (wf_is_int f); auto; lia).
    rewrite add_id by (apply (wf_is_int f); auto; lia).
    reflexivity.
Qed.

Lemma unpack_plain_empty (f : token.File) (o : Z) :
  token.lines f = [] -> token.unpack f o false = (token.name f, 0, 0).
Proof. intros E. unfold token.unpack. rewrite E. reflexivity. Qed.

Lemma PositionFor_plain (f : token.File) (o : Z) :
  wf_File f -> 0 <= o <= token.size f ->
  token.PositionFor f (token.base f + o) false
  = Ret (let '(filename, line, column) := token.unpack f o false in
         token.mkPosition filename o line column).
Proof.
  intros Hwf Ho. pose proof (wf_base f Hwf). pose proof (wf_limit f Hwf).
  unfold token.PositionFor, token.NoPos. rewrite base_plus_size by auto.
  cmp_lia. simpl. unfold token.position.
  rewrite sub_id by (apply (wf_is_int f); auto; lia).
  replace (token.base f + o - token.base f) with o by lia. reflexivity.
Qed.

Section Resolution.

Variable Position : token.File -> token.Pos -> outcome token.Position.
Variable f : token.File.
Hypothesis Hwf : wf_File f.
Hypothesis Hplain : ignores_directives Position f.

Lemma positionFromOffset_eof :
  positionFromOffset Position (Some f) (token.size f)
  = Ret (token.name f, token.LineCount f + 1, 1, None).
Proof.
  pose proof (wf_size f Hwf) as Hs.
  unfold positionFromOffset. simpl. unfold token.Size. cmp_lia.
  rewrite File_Pos_ok by (auto; lia). simpl.
  rewrite Hplain by (unfold in_file; lia).
  rewrite PositionFor_plain by (auto; lia). simpl.
  destruct (token.lines f) as [|x tl] eqn:El.
  - rewrite unpack_plain_empty by auto. simpl.
    unfold token.LineCount. rewrite El. reflexivity.
  - destruct (unpack_plain f (token.size f) Hwf ltac:(lia) ltac:(congruence))
      as (r & Hr & _ & Hlast & ->).
    simpl. rewrite (Hlast eq_refl).
    replace (token.LineCount f - 1 + 1) with (token.LineCount f) by lia.
    rewrite lineMax_ok by auto. reflexivity.
Qed.

Lemma positionFromOffset_inner (o : Z) :
  0 <= o < token.size f ->
  exists r,
    0 <= r < token.LineCount f /\
    token.index (token.lines f) r 0 <= o /\
    positionFromOffset Position (Some f) o
    = Ret (token.name f, r + 1, o - token.index (token.lines f) r 0 + 1, None).
Proof.
  intros Ho.
  assert (Hne : token.lines f <> []).
  { intros E. pose proof (wf_first f Hwf) as Hf. rewrite E in Hf. lia. }
  destruct (unpack_plain f o Hwf ltac:(lia) Hne) as (r & Hr & Hle & _ & Hu).
  exists r. repeat split; try lia.
  unfold positionFromOffset. simpl. unfold token.Size. cmp_lia.
  rewrite File_Pos_ok by (auto; lia). simpl.
  rewrite Hplain by (unfold in_file; lia).
  rewrite PositionFor_plain by (auto; lia). rewrite Hu. reflexivity.
Qed.

(** Every offset of the file resolves to a line and column from which
    [ToOffset] finds the offset again. *)
Lemma resolve_offset (o : Z) :
  0 <= o <= token.size f ->
  exists line col,
    positionFromOffset Position (Some f) o = Ret (token.name f, line, col, None) /\
    1 <= line /\ 1 <= col /\
    ToOffset (Some f) line col = Ret (o, None).
Proof.
  intros Ho. destruct (Z.eq_dec o (token.size f)) as [->|Hne].
  - exists (token.LineCount f + 1), 1. pose proof (LineCount_bound f Hwf).
    repeat split; try lia.
    + apply positionFromOffset_eof.
    + apply ToOffset_eof; auto; lia.
  - destruct (positionFromOffset_inner o ltac:(lia)) as (r & Hr & Hle & Hp).
    exists (r + 1), (o - token.index (token.lines f) r 0 + 1).
    repeat split; try lia; auto.
    rewrite ToOffset_line; auto; try lia;
      replace (r + 1 - 1) with r by lia; try lia.
    do 2 f_equal. lia.
Qed.

End Resolution.

(** * The claims *)

Ltac wf_by_computation :=
  constructor; simpl; unfold GoInt.maxInt; try lia; repeat constructor; lia.

Ltac plain_by_computation := intros ? _; reflexivity.

(** C1. Round trip: on every well-formed file, whose position lookup reports
    the file's own line table, every offset [o] with [0 <= o <= size] is
    converted by [OffsetToLineCol8] to a (line, column) pair without error,
    and [ToOffset] converts that pair back to [o] without error. *)
Theorem OffsetToLineCol8_ToOffset_roundtrip
  (Position : token.File -> token.Pos -> outcome token.Position)
  (f : token.File) (o : Z) :
  wf_File f -> ignores_directives Position f ->
  0 <= o <= token.size f ->
  exists line col,
    OffsetToLineCol8 Position (Some f) o = Ret (line, col, None) /\
    ToOffset (Some f) line col = Ret (o, None).
Proof.
  intros Hwf Hplain Ho.
  destruct (resolve_offset Position f Hwf Hplain o Ho)
    as (line & col & Hp & _ & _ & Hback).
  exists line, col. split; auto.
  unfold OffsetToLineCol8. rewrite Hp. reflexivity.
Qed.

Lemma OffsetToLineCol8_ToOffset_roundtrip_witness :
  exists line col,
    OffsetToLineCol8 Position_plain (Some file28) 13 = Ret (line, col, None) /\
    ToOffset (Some file28) line col = Ret (13, None).
Proof.
  apply (OffsetToLineCol8_ToOffset_roundtrip Position_plain file28 13).
  - wf_by_computation.
  - plain_by_computation.
  - simpl; lia.
Defined.

(** C2. End-of-file sentinel: on every well-formed file,
    [positionFromOffset] at [size] returns, without error, line
    [LineCount + 1] and column 1; at every offset above [size] it returns
    the beyond-EOF error. *)
Theorem positionFromOffset_eof_sentinel
  (Position : token.File -> token.Pos -> outcome token.Position)
  (f : token.File) :
  wf_File f -> ignores_directives Position f ->
  positionFromOffset Position (Some f) (token.size f)
  = Ret (token.name f, token.LineCount f + 1, 1, None) /\
  forall o, token.size f < o ->
    positionFromOffset Position (Some f) o
    = Ret ("", 0, 0, Some (ErrOffsetBeyondEOF o (token.size f) (token.name f))).
Proof.
  intros Hwf Hplain. split.
  - apply positionFromOffset_eof; auto.
  - intros o Ho. unfold positionFromOffset. simpl. unfold token.Size.
    cmp_lia. reflexivity.
Qed.

Lemma positionFromOffset_eof_sentinel_witness :
  positionFromOffset Position_plain (Some file28) 28 = Ret ("main.go", 3, 1, None) /\
  forall o, 28 < o ->
    positionFromOffset Position_plain (Some file28) o
    = Ret ("", 0, 0, Some (ErrOffsetBeyondEOF o 28 "main.go")).
Proof.
  apply (positionFromOffset_eof_sentinel Position_plain file28).
  - wf_by_computation.
  - plain_by_computation.
Defined.

(** C3. Input validation of [ToOffset] on a well-formed file: a line below 1
    fails with the invalid-line error; a line above [LineCount + 1] fails
    with the beyond-end-of-file error; on the sentinel line [LineCount + 1]
    column 1 yields [size] and every column above 1 fails with the
    column-beyond-end-of-file error. *)
Theorem ToOffset_validation (f : token.File) :
  wf_File f ->
  (forall line col, line < 1 ->
     ToOffset (Some f) line col = Ret (-1, Some (ErrInvalidLine line))) /\
  (forall line col, line > token.LineCount f + 1 ->
     ToOffset (Some f) line col
     = Ret (-1, Some (ErrLineBeyondEOF line (token.LineCount f + 1)))) /\
  ToOffset (Some f) (token.LineCount f + 1) 1 = Ret (token.size f, None) /\
  (forall col, col > 1 ->
     ToOffset (Some f) (token.LineCount f + 1) col
     = Ret (-1, Some ErrColumnBeyondEOF)).
Proof.
  intros Hwf. pose proof (LineCount_bound f Hwf) as Hlc.
  repeat split.
  - intros line col Hl. unfold ToOffset. cmp_lia. reflexivity.
  - intros line col Hl. unfold ToOffset. cmp_lia. simpl.
    rewrite lineMax_ok by auto. cmp_lia. reflexivity.
  - apply ToOffset_eof; auto; lia.
  - intros col Hc. unfold ToOffset. cmp_lia. simpl.
    rewrite lineMax_ok by auto. cmp_lia. reflexivity.
Qed.

Lemma ToOffset_validation_witness :
  ToOffset (Some file28) 0 1 = Ret (-1, Some (ErrInvalidLine 0)) /\
  ToOffset (Some file28) 100 1 = Ret (-1, Some (ErrLineBeyondEOF 100 3)) /\
  ToOffset (Some file28) 3 1 = Ret (28, None) /\
  ToOffset (Some file28) 3 2 = Ret (-1, Some ErrColumnBeyondEOF).
Proof.
  destruct (ToOffset_validation file28 ltac:(wf_by_computation))
    as (Hlow & Hhigh & Hone & Hcol).
  split; [|split; [|split]].
  - apply (Hlow 0 1). lia.
  - apply (Hhigh 100 1). simpl. lia.
  - exact Hone.
  - apply (Hcol 2). lia.
Defined.

(** C8. The guarded position-to-offset primitive: on a well-formed file,
    [offset] returns an error (and does not panic) exactly when the position
    lies outside [[base, base+size]], and otherwise returns [p - base]
    without error. *)
Theorem offset_guarded (f : token.File) (p : token.Pos) :
  wf_File f ->
  (in_file f p -> offset (Some f) p = Ret (p - token.base f, None)) /\
  (~ in_file f p ->
   offset (Some f) p
   = Ret (0, Some (ErrInvalidPos p (token.base f) (token.base f + token.size f)))) /\
  ((exists n e, offset (Some f) p = Ret (n, Some e)) <-> ~ in_file f p).
Proof.
  intros Hwf. split; [|split].
  - apply offset_in; auto.
  - apply offset_out; auto.
  - split.
    + intros (n & e & He) Hin. rewrite offset_in in He by auto. discriminate.
    + intros Hout. rewrite offset_out by auto. eauto.
Qed.

Lemma offset_guarded_witness :
  (in_file file28 14 -> offset (Some file28) 14 = Ret (13, None)) /\
  (~ in_file file28 14 ->
   offset (Some file28) 14 = Ret (0, Some (ErrInvalidPos 14 1 29))) /\
  ((exists n e, offset (Some file28) 14 = Ret (n, Some e)) <-> ~ in_file file28 14).
Proof.
  apply (offset_guarded file28 14). wf_by_computation.
Defined.

(** C10. The offset that accompanies a [ToOffset] error is not uniform.  On
    a well-formed file the invalid-line, line-beyond-EOF and sentinel-column
    failures return offset [-1]; when the start of an existing line plus
    [col - 1] exceeds the file size, the result is an error together with
    offset [0], which is an offset of the file.  The error is the
    column-beyond-end-of-file one unless the sum overflows an [int]. *)
Theorem ToOffset_failure_offsets (f : token.File) :
  wf_File f ->
  (forall line col, line < 1 ->
     exists e, ToOffset (Some f) line col = Ret (-1, Some e)) /\
  (forall line col, line > token.LineCount f + 1 ->
     exists e, ToOffset (Some f) line col = Ret (-1, Some e)) /\
  (forall col, col > 1 ->
     exists e, ToOffset (Some f) (token.LineCount f + 1) col = Ret (-1, Some e)) /\
  (forall line col,
     1 <= line <= token.LineCount f -> GoInt.is_int col ->
     token.index (token.lines f) (line - 1) 0 + (col - 1) > token.size f ->
     exists e,
       ToOffset (Some f) line col = Ret (0, Some e) /\
       (token.base f + token.index (token.lines f) (line - 1) 0 + (col - 1)
        <= GoInt.maxInt ->
        e = ErrToOffsetColumnBeyondEOF col)) /\
  0 <= 0 <= token.size f.
Proof.
  intros Hwf. pose proof (LineCount_bound f Hwf) as Hlc.
  pose proof (wf_base f Hwf) as Hb. pose proof (wf_limit f Hwf) as Hlim.
  pose proof (wf_size f Hwf) as Hs.
  split; [|split; [|split; [|split]]]; try lia.
  - intros line col Hl. unfold ToOffset. cmp_lia. eauto.
  - intros line col Hl. unfold ToOffset. cmp_lia. simpl.
    rewrite lineMax_ok by auto. cmp_lia. eauto.
  - intros col Hc. unfold ToOffset. cmp_lia. simpl.
    rewrite lineMax_ok by auto. cmp_lia. eauto.
  - intros line col Hl Hcol Hbeyond.
    pose proof (line_entry_range f (line - 1) Hwf ltac:(lia)) as He.
    set (ls := token.index (token.lines f) (line - 1) 0) in *.
    unfold GoInt.is_int, GoInt.minInt, GoInt.maxInt in Hcol.
    unfold GoInt.maxInt in Hlim.
    unfold ToOffset. cmp_lia. simpl. rewrite lineMax_ok by auto. cmp_lia.
    rewrite LineStart_ok by auto. fold ls. simpl.
    unfold token.IsValid, token.NoPos. cmp_lia. simpl.
    unfold token.Base, token.Size. rewrite base_plus_size by auto.
    rewrite (sub_id col 1)
      by (unfold GoInt.is_int, GoInt.minInt, GoInt.maxInt; lia).
    destruct (Z.le_gt_cases (token.base f + ls + (col - 1)) GoInt.maxInt)
      as [Hfit|Hover].
    + rewrite add_id
        by (unfold GoInt.is_int, GoInt.minInt, GoInt.maxInt in *; lia).
      cmp_lia. eauto.
    + unfold GoInt.add. unfold GoInt.maxInt in Hover.
      rewrite wrap_overflow by (unfold GoInt.maxInt; lia).
      cmp_lia.
      rewrite offset_out by (auto; unfold in_file; lia).
      eexists. split; [reflexivity|]. unfold GoInt.maxInt. lia.
Qed.

Lemma ToOffset_failure_offsets_witness :
  (exists e, ToOffset (Some file28) 0 1 = Ret (-1, Some e)) /\
  (exists e, ToOffset (Some file28) 100 1 = Ret (-1, Some e)) /\
  (exists e, ToOffset (Some file28) 3 2 = Ret (-1, Some e)) /\
  (exists e, ToOffset (Some file28) 2 20 = Ret (0, Some e) /\
             (1 + 13 + (20 - 1) <= GoInt.maxInt ->
              e = ErrToOffsetColumnBeyondEOF 20)).
Proof.
  destruct (ToOffset_failure_offsets file28 ltac:(wf_by_computation))
    as (Hlow & Hhigh & Hcol & Hline & _).
  split; [|split; [|split]].
  - apply (Hlow 0 1). lia.
  - apply (Hhigh 100 1). simpl. lia.
  - apply (Hcol 2). lia.
  - apply (Hline 2 20).
    + unfold token.LineCount; simpl; lia.
    + unfold GoInt.is_int, GoInt.minInt, GoInt.maxInt. lia.
    + simpl. lia.
Defined.




(** C5, as the spec states it, fails: [NewRange] accepts a start outside the
    file's address space.  Position 100 is not a position of the 10-byte
    file based at 1, and [NewRange] returns a Range for it. *)
Lemma NewRange_accepts_start_outside_file :
  ~ in_file file10 100 /\
  NewRange (Some file10) 100 token.NoPos = Ret (mkRange (Some file10) 100 100).
Proof.
  split.
  - unfold in_file. simpl. lia.
  - reflexivity.
Qed.

(** C5, amended. [NewRange] panics exactly when the file is nil or the start
    is the invalid position [NoPos]; it does not look at the file's base and
    size. *)
Theorem NewRange_panics_iff
  (file : option token.File) (start end_ : token.Pos) :
  (exists msg, NewRange file start end_ = Panic msg)
  <-> (file = None \/ token.IsValid start = false).
Proof.
  unfold NewRange. destruct file as [f|].
  - destruct (token.IsValid start); simpl; split.
    + intros (msg & H). discriminate.
    + intros [H|H]; discriminate.
    + auto.
    + eauto.
  - split; eauto.
Qed.

(** ** Resolved offsets *)

(** An offset that [ToOffset] returns without error is an offset of the file. *)
Lemma ToOffset_ok_range (f : token.File) (line col o : Z) :
  wf_File f -> ToOffset (Some f) line col = Ret (o, None) ->
  0 <= o <= token.size f.
Proof.
  intros Hwf. pose proof (LineCount_bound f Hwf) as Hlc.
  pose proof (wf_size f Hwf) as Hs.
  unfold ToOffset.
  destruct (Z.ltb_spec line 1) as [|Hl1]; [discriminate|]. simpl.
  rewrite lineMax_ok by auto.
  destruct (Z.gtb_spec line (token.LineCount f + 1)) as [|Hl2]; [discriminate|].
  destruct (Z.eqb_spec line (token.LineCount f + 1)) as [|Hl3].
  - destruct (col >? 1); [discriminate|]. unfold token.Size.
    intros H; inversion H; subst; lia.
  - rewrite LineStart_ok by (auto; lia). simpl.
    destruct (negb _); [discriminate|].
    destruct (_ >? _); [discriminate|].
    set (pos := GoInt.add _ _).
    destruct (Z.le_gt_cases (token.base f) pos) as [Hlo|Hlo];
      [destruct (Z.le_gt_cases pos (token.base f + token.size f)) as [Hhi|Hhi]|].
    + rewrite offset_in by (auto; unfold in_file; lia).
      intros H; inversion H; subst; lia.
    + rewrite offset_out by (auto; unfold in_file; lia). discriminate.
    + rewrite offset_out by (auto; unfold in_file; lia). discriminate.
Qed.

Lemma updateOffset_ok (f : token.File) (p p' : point) :
  wf_File f -> updateOffset p (Some f) = Ret (p', None) ->
  Line p' = Line p /\ Column p' = Column p /\
  ToOffset (Some f) (Line p) (Column p) = Ret (Offset p', None) /\
  0 <= Offset p' <= token.size f.
Proof.
  intros Hwf. unfold updateOffset.
  destruct (ToOffset (Some f) (Line p) (Column p)) as [[o [e|]]|msg] eqn:E;
    simpl; try discriminate.
  intros H; inversion H; subst; simpl. repeat split; auto;
    apply (ToOffset_ok_range f _ _ _ Hwf E).
Qed.

(** With the value model of [span.go], the start of a Span that [WithOffset]
    resolved against a well-formed file always holds an offset, so
    [Point.Offset] reads it: the first premise about [Point.Offset] in C4
    below is met by every Span. *)
Lemma WithOffset_start_readable (f : token.File) (s s' : Span) :
  wf_File f -> WithOffset s (Some f) = Ret (s', None) ->
  Point_Offset (Start (v s')) = Ret (Offset (Start (v s'))).
Proof.
  intros Hwf Hres.
  assert (H0 : 0 <= Offset (Start (v s'))).
  { revert Hres. unfold WithOffset.
    destruct (negb (isValid (Start (v s)))); [discriminate|].
    destruct (negb (hasOffset (Start (v s))) || _) eqn:Hupd.
    - destruct (updateOffset (Start (v s)) (Some f)) as [[st [e|]]|msg] eqn:Est;
        simpl; try discriminate.
      destruct (updateOffset_ok f _ _ Hwf Est) as (_ & _ & _ & Hrange).
      destruct ((Line (End_ (v s)) =? Line st) && (Column (End_ (v s)) =? Column st)).
      + intros H; inversion H; subst; simpl. lia.
      + destruct (updateOffset (End_ (v s)) (Some f)) as [[en [e|]]|msg'];
          simpl; try discriminate.
        intros H; inversion H; subst; simpl. lia.
    - apply orb_false_elim in Hupd. destruct Hupd as [Hst _].
      apply negb_false_iff in Hst. unfold hasOffset in Hst.
      intros H; inversion H; subst. lia. }
  unfold Point_Offset, hasOffset. cmp_lia. reflexivity.
Qed.

(** C4. Staleness safety of [Span.Range], whatever [WithOffset] and
    [Point.Offset] are: when the offsets of the Span resolve against the
    file and the resolved start offset, or else the resolved end offset,
    exceeds the file size, [Span.Range] returns the zero Range with an error
    reported through [bug.Errorf]; it does not panic. *)
Theorem Span_Range_stale_is_error
  (WithOffset : Span -> option token.File -> outcome (Span * option error))
  (Point_Offset : point -> outcome Z)
  (f : token.File) (s s' : Span) (so eo : Z) :
  WithOffset s (Some f) = Ret (s', None) ->
  Point_Offset (Start (v s')) = Ret so ->
  so > token.size f \/
  (Point_Offset (End_ (v s')) = Ret eo /\ eo > token.size f) ->
  exists e,
    Span_Range WithOffset Point_Offset s (Some f) = Ret (zero_Range, Some e) /\
    is_bug e = true.
Proof.
  intros Hres Hso Hstale.
  unfold Span_Range. rewrite Hres. simpl. rewrite Hso. simpl.
  unfold token.Size.
  destruct (Z.gtb_spec so (token.size f)) as [Hgt|Hle].
  - eexists. split; reflexivity.
  - destruct Hstale as [Hst|[Heo Hen]]; [lia|].
    rewrite Heo. simpl. cmp_lia. eexists. split; reflexivity.
Qed.

Lemma Span_Range_stale_is_error_witness :
  exists e,
    Span_Range WithOffset Point_Offset span_of_file28 (Some file10)
    = Ret (zero_Range, Some e) /\
    is_bug e = true.
Proof.
  apply (Span_Range_stale_is_error WithOffset Point_Offset
           file10 span_of_file28 span_of_file28 13 19).
  - reflexivity.
  - reflexivity.
  - left. simpl. lia.
Defined.

(** ** From a Range to a Span and back *)

Lemma ToOffset_1_1 (f : token.File) :
  wf_File f -> ToOffset (Some f) 1 1 = Ret (0, None).
Proof.
  intros Hwf. pose proof (wf_first f Hwf) as Hfirst.
  pose proof (wf_size f Hwf) as Hs.
  destruct (token.lines f) as [|x tl] eqn:El.
  - replace 1 with (token.LineCount f + 1) at 1
      by (unfold token.LineCount; rewrite El; reflexivity).
    rewrite ToOffset_eof by (auto; lia). rewrite Hfirst. reflexivity.
  - assert (Hlc : 1 <= token.LineCount f).
    { unfold token.LineCount. rewrite El. simpl List.length. lia. }
    assert (H0 : token.index (token.lines f) (1 - 1) 0 = 0).
    { rewrite El. subst x. reflexivity. }
    rewrite ToOffset_line by (auto; lia). rewrite H0. reflexivity.
Qed.

Lemma point_clean_resolved (l c : Z) :
  1 <= l -> 1 <= c ->
  point_clean (mkPoint l c 0)
  = mkPoint l c (if (l =? 1) && (c =? 1) then 0 else -1).
Proof.
  intros Hl Hc. unfold point_clean. simpl. cmp_lia.
  destruct (Z.eqb_spec l 1) as [->|Hl1]; destruct (Z.eqb_spec c 1) as [->|Hc1];
    simpl; cmp_lia; simpl; try reflexivity;
    rewrite ?orb_true_r; reflexivity.
Qed.

(** [FileSpan]'s last steps: cleaning the two points and the span, then
    resolving the offsets, fills in the offsets that [ToOffset] computes. *)
Lemma WithOffset_after_clean
  (f : token.File) (uri : string) (sl sc el ec so eo : Z) :
  wf_File f ->
  1 <= sl -> 1 <= sc -> 1 <= el -> 1 <= ec ->
  ToOffset (Some f) sl sc = Ret (so, None) ->
  ToOffset (Some f) el ec = Ret (eo, None) ->
  WithOffset
    (mkSpan (span_clean (mkspan uri (point_clean (mkPoint sl sc 0))
                           (point_clean (mkPoint el ec 0)))))
    (Some f)
  = Ret (mkSpan (mkspan uri (mkPoint sl sc so) (mkPoint el ec eo)), None).
Proof.
  intros Hwf Hsl Hsc Hel Hec Hso Heo.
  pose proof (ToOffset_1_1 f Hwf) as H11.
  rewrite !point_clean_resolved by lia.
  assert (Hspan : forall a b,
             span_clean (mkspan uri a (mkPoint el ec b)) = mkspan uri a (mkPoint el ec b)).
  { intros a b. unfold span_clean, isValid, hasPosition, point_eqb. simpl.
    cmp_lia. reflexivity. }
  rewrite Hspan. clear Hspan.
  unfold WithOffset, isValid, hasPosition, hasOffset, updateOffset. simpl.
  cmp_lia. simpl.
  destruct ((sl =? 1) && (sc =? 1)) eqn:Es; destruct ((el =? 1) && (ec =? 1)) eqn:Ee;
    simpl;
    repeat match goal with
      | H : _ && _ = true |- _ =>
          apply andb_true_iff in H; destruct H as [?%Z.eqb_eq ?%Z.eqb_eq]; subst
      end;
    try rewrite H11 in *;
    repeat match goal with
      | H : Ret _ = Ret _ |- _ => inversion H; subst; clear H
      end;
    try reflexivity.
  - cbn -[Z.eqb]. rewrite Ee, Heo. reflexivity.
  - rewrite Hso. cbn -[Z.eqb].
    destruct ((1 =? sl) && (1 =? sc)) eqn:E.
    + apply andb_true_iff in E. destruct E as [?%Z.eqb_eq ?%Z.eqb_eq]; subst.
      simpl in Es. discriminate.
    + reflexivity.
  - rewrite Hso. cbn -[Z.eqb].
    destruct ((el =? sl) && (ec =? sc)) eqn:E.
    + apply andb_true_iff in E. destruct E as [?%Z.eqb_eq ?%Z.eqb_eq]; subst.
      rewrite Hso in Heo. inversion Heo; subst. reflexivity.
    + rewrite Heo. reflexivity.
Qed.

(** [Span.Range] on a Span whose offsets are resolved and within the file. *)
Lemma Span_Range_resolved
  (f : token.File) (uri : string) (sl sc el ec so eo : Z) :
  wf_File f -> 1 <= sl ->
  0 <= so <= token.size f -> 0 <= eo <= token.size f ->
  Span_Range WithOffset Point_Offset
    (mkSpan (mkspan uri (mkPoint sl sc so) (mkPoint el ec eo))) (Some f)
  = Ret (mkRange (Some f) (token.base f + so) (token.base f + eo), None).
Proof.
  intros Hwf Hsl Hso Heo.
  unfold Span_Range, WithOffset, isValid, hasPosition, hasOffset. simpl.
  cmp_lia. simpl. rewrite andb_false_r. simpl.
  unfold Point_Offset, hasOffset. simpl. cmp_lia. simpl.
  unfold token.Size. cmp_lia.
  rewrite !File_Pos_ok by auto. reflexivity.
Qed.

Lemma position_ok
  (Position : token.File -> token.Pos -> outcome token.Position)
  (f : token.File) (p : token.Pos) :
  wf_File f -> ignores_directives Position f -> in_file f p ->
  exists line col,
    position Position (Some f) p = Ret (token.name f, line, col, None) /\
    1 <= line /\ 1 <= col /\
    ToOffset (Some f) line col = Ret (p - token.base f, None).
Proof.
  intros Hwf Hplain Hp. unfold in_file in Hp.
  destruct (resolve_offset Position f Hwf Hplain (p - token.base f) ltac:(lia))
    as (line & col & Hpos & Hl & Hc & Hback).
  exists line, col. repeat split; auto.
  unfold position. rewrite offset_in by auto. simpl. exact Hpos.
Qed.

(** C9. Round trip through Span, with the Point and Span value model of
    [span.go]: for a Range over a well-formed file whose start and end are
    positions of that file, [Range.Span] returns a Span without error, and
    [Span.Range] against the same file returns, without error, the Range with
    the original file, start and end. *)
Theorem Range_Span_Range_roundtrip
  (Position : token.File -> token.Pos -> outcome token.Position)
  (URIFromPath : string -> string)
  (f : token.File) (start end_ : token.Pos) :
  wf_File f -> ignores_directives Position f ->
  in_file f start -> in_file f end_ ->
  exists s,
    Range_Span Position URIFromPath point_clean span_clean WithOffset
      (mkRange (Some f) start end_) = Ret (s, None) /\
    Span_Range WithOffset Point_Offset s (Some f)
    = Ret (mkRange (Some f) start end_, None).
Proof.
  intros Hwf Hplain Hstart Hend.
  pose proof (wf_base f Hwf) as Hb.
  destruct (position_ok Position f start Hwf Hplain Hstart)
    as (sl & sc & Hps & Hsl & Hsc & Hso).
  destruct (position_ok Position f end_ Hwf Hplain Hend)
    as (el & ec & Hpe & Hel & Hec & Heo).
  unfold in_file in Hstart, Hend.
  exists (mkSpan (mkspan (URIFromPath (token.name f))
                    (mkPoint sl sc (start - token.base f))
                    (mkPoint el ec (end_ - token.base f)))).
  split.
  - unfold Range_Span, FileSpan. simpl.
    unfold token.IsValid, token.NoPos. cmp_lia. simpl.
    rewrite Hps. simpl. rewrite Hpe. simpl.
    rewrite String.eqb_refl. simpl.
    apply WithOffset_after_clean; auto.
  - rewrite Span_Range_resolved by (auto; lia).
    do 3 f_equal; lia.
Qed.

Lemma Range_Span_Range_roundtrip_witness :
  exists s,
    Range_Span Position_plain URIFromPath_unix point_clean span_clean WithOffset
      (mkRange (Some file28) 14 20) = Ret (s, None) /\
    Span_Range WithOffset Point_Offset s (Some file28)
    = Ret (mkRange (Some file28) 14 20, None).
Proof.
  apply (Range_Span_Range_roundtrip Position_plain URIFromPath_unix file28 14 20).
  - wf_by_computation.
  - plain_by_computation.
  - unfold in_file; simpl; lia.
  - unfold in_file; simpl; lia.
Defined.

(** ** Start and end in one file *)




(** * Further properties of [token.go] *)

(** ** [ToOffset]: when it succeeds, and that it never panics *)

Lemma wrap_underflow (z : Z) :
  2 * GoInt.minInt <= z < GoInt.minInt -> GoInt.wrap z = z + 2 ^ 64.
Proof.
  unfold GoInt.wrap, GoInt.minInt. intros H.
  replace (z + 2 ^ 63) with ((z + 2 ^ 63 + 2 ^ 64) + (-1) * 2 ^ 64) by lia.
  rewrite Z.mod_add by lia. rewrite Z.mod_small; lia.
Qed.

(** The position [ToOffset] computes for a column lies in the file only when
    no step of the computation wrapped. *)
Lemma column_position (f : token.File) (ls col : Z) :
  wf_File f -> 0 <= ls <= token.size f -> GoInt.is_int col ->
  in_file f (GoInt.add (token.base f + ls) (GoInt.sub col 1)) ->
  GoInt.add (token.base f + ls) (GoInt.sub col 1) = token.base f + ls + (col - 1).
Proof.
  intros Hwf Hls Hcol Hin.
  pose proof (wf_base f Hwf) as Hb. pose proof (wf_limit f Hwf) as Hlim.
  unfold in_file in Hin. revert Hin.
  unfold GoInt.is_int, GoInt.minInt, GoInt.maxInt in *.
  destruct (Z.eq_dec col (- 2 ^ 63)) as [->|Hne].
  - unfold GoInt.sub. rewrite wrap_underflow by (unfold GoInt.minInt; lia).
    unfold GoInt.add. rewrite wrap_overflow by (unfold GoInt.maxInt; lia). lia.
  - rewrite sub_id by (unfold GoInt.is_int, GoInt.minInt, GoInt.maxInt; lia).
    destruct (Z.le_gt_cases (token.base f + ls + (col - 1)) (2 ^ 63 - 1)).
    + rewrite add_id by (unfold GoInt.is_int, GoInt.minInt, GoInt.maxInt; lia).
      lia.
    + unfold GoInt.add. rewrite wrap_overflow by (unfold GoInt.maxInt; lia). lia.
Qed.

(** X1. On a well-formed file [ToOffset] succeeds in exactly two ways: on the
    sentinel line [LineCount + 1] with a column of at most 1, where it
    returns [size]; and on an existing line, where it returns the line's
    start plus [col - 1] provided that sum is an offset of the file.  The
    column is not compared with the length of the line, nor required to be
    positive. *)
Theorem ToOffset_success_iff (f : token.File) (line col o : Z) :
  wf_File f -> GoInt.is_int col ->
  (ToOffset (Some f) line col = Ret (o, None)
   <->
   (line = token.LineCount f + 1 /\ col <= 1 /\ o = token.size f) \/
   (1 <= line <= token.LineCount f /\
    o = token.index (token.lines f) (line - 1) 0 + (col - 1) /\
    0 <= o <= token.size f)).
Proof.
  intros Hwf Hcol. pose proof (LineCount_bound f Hwf) as Hlc.
  pose proof (wf_base f Hwf) as Hb. pose proof (wf_limit f Hwf) as Hlim.
  split.
  - unfold ToOffset.
    destruct (Z.ltb_spec line 1) as [|Hl1]; [discriminate|]. simpl.
    rewrite lineMax_ok by auto.
    destruct (Z.gtb_spec line (token.LineCount f + 1)) as [|Hl2]; [discriminate|].
    destruct (Z.eqb_spec line (token.LineCount f + 1)) as [Heq|Hl3].
    + destruct (Z.gtb_spec col 1); [discriminate|].
      unfold token.Size. intros Hret; inversion Hret; subst. left. lia.
    + pose proof (line_entry_range f (line - 1) Hwf ltac:(lia)) as He.
      rewrite LineStart_ok by (auto; lia). simpl.
      unfold token.IsValid, token.NoPos. cmp_lia. simpl.
      unfold token.Base, token.Size. rewrite base_plus_size by auto.
      set (ls := token.index (token.lines f) (line - 1) 0) in *.
      set (pos := GoInt.add (token.base f + ls) (GoInt.sub col 1)).
      destruct (Z.ltb_spec (token.base f + token.size f) pos); [discriminate|].
      destruct (Z.le_gt_cases (token.base f) pos) as [Hlo|Hlo].
      * assert (Hin : in_file f pos) by (unfold in_file; lia).
        rewrite offset_in by auto.
        pose proof (column_position f ls col Hwf He Hcol Hin) as Hpos.
        fold pos in Hpos. unfold in_file in Hin.
        intros Hret; inversion Hret; subst. right. lia.
      * rewrite offset_out by (auto; unfold in_file; lia). discriminate.
  - intros [(-> & Hc & ->)|(Hl & -> & Ho)].
    + apply ToOffset_eof; auto.
    + apply ToOffset_line; auto.
Qed.

Lemma ToOffset_success_iff_witness :
  ToOffset (Some file28) 1 20 = Ret (19, None)
  <->
  (1 = token.LineCount file28 + 1 /\ 20 <= 1 /\ 19 = token.size file28) \/
  (1 <= 1 <= token.LineCount file28 /\
   19 = token.index (token.lines file28) (1 - 1) 0 + (20 - 1) /\
   0 <= 19 <= token.size file28).
Proof.
  apply (ToOffset_success_iff file28 1 20 19).
  - wf_by_computation.
  - unfold GoInt.is_int, GoInt.minInt, GoInt.maxInt. lia.
Defined.

(** X2. [ToOffset] never panics on a non-nil file, whatever the line and
    column and whether or not the line table is well formed: its two line
    checks keep [token.File.LineStart] from panicking.  The only
    requirement is that [LineCount() + 1] does not overflow. *)
Theorem ToOffset_never_panics (f : token.File) (line col : Z) :
  token.LineCount f < GoInt.maxInt ->
  exists r, ToOffset (Some f) line col = Ret r.
Proof.
  intros Hlc.
  assert (H0 : 0 <= token.LineCount f) by (unfold token.LineCount; lia).
  unfold ToOffset.
  destruct (Z.ltb_spec line 1) as [|Hl1]; [eauto|]. simpl.
  rewrite add_id
    by (unfold GoInt.is_int, GoInt.minInt, GoInt.maxInt in *; lia).
  destruct (Z.gtb_spec line (token.LineCount f + 1)) as [|Hl2]; [eauto|].
  destruct (Z.eqb_spec line (token.LineCount f + 1)) as [Heq|Hl3].
  - destruct (col >? 1); eauto.
  - unfold token.LineStart. fold (token.LineCount f). cmp_lia. simpl.
    destruct (negb _); [eauto|].
    destruct (_ >? _); [eauto|].
    unfold offset. simpl. destruct (_ || _); eauto.
Qed.

Lemma ToOffset_never_panics_witness :
  exists r, ToOffset (Some file28) 2 (-7) = Ret r.
Proof.
  apply (ToOffset_never_panics file28 2 (-7)).
  unfold token.LineCount, GoInt.maxInt. simpl. lia.
Defined.

(** ** Positions and offsets *)

(** X6. [offset] and [token.File.Pos] are inverse to each other on a
    well-formed file: a position of the file goes to an offset from which
    [Pos] gives the position back, and an offset in [[0, size]] goes to a
    position whose [offset] is that offset. *)
Theorem offset_File_Pos_inverse (f : token.File) :
  wf_File f ->
  (forall p, in_file f p ->
     exists o, offset (Some f) p = Ret (o, None) /\
               0 <= o <= token.size f /\
               token.File_Pos f o = Ret p) /\
  (forall o, 0 <= o <= token.size f ->
     exists p, token.File_Pos f o = Ret p /\
               in_file f p /\
               offset (Some f) p = Ret (o, None)).
Proof.
  intros Hwf. split.
  - intros p Hp. exists (p - token.base f).
    split; [apply offset_in; auto|]. unfold in_file in Hp. split; [lia|].
    rewrite File_Pos_ok by (auto; lia).
    replace (token.base f + (p - token.base f)) with p by lia. reflexivity.
  - intros o Ho. exists (token.base f + o).
    split; [apply File_Pos_ok; auto|].
    split; [unfold in_file; lia|].
    rewrite offset_in by (auto; unfold in_file; lia). do 2 f_equal. lia.
Qed.

Lemma offset_File_Pos_inverse_witness :
  (forall p, in_file file28 p ->
     exists o, offset (Some file28) p = Ret (o, None) /\
               0 <= o <= token.size file28 /\
               token.File_Pos file28 o = Ret p) /\
  (forall o, 0 <= o <= token.size file28 ->
     exists p, token.File_Pos file28 o = Ret p /\
               in_file file28 p /\
               offset (Some file28) p = Ret (o, None)).
Proof.
  apply (offset_File_Pos_inverse file28). wf_by_computation.
Defined.

(** ** The line and column [OffsetToLineCol8] reports *)

(** The entry of the line table that [searchInts] selects for an offset of a
    well-formed file, and the line and column [unpack] derives from it. *)
Lemma searchInts_locates (f : token.File) (o : Z) :
  wf_File f -> 0 <= o <= token.size f -> token.lines f <> [] ->
  let r := token.searchInts (token.lines f) o in
  0 <= r < token.LineCount f /\
  token.index (token.lines f) r 0 <= o /\
  (r + 1 < token.LineCount f -> o < token.index (token.lines f) (r + 1) 0) /\
  token.unpack f o false
  = (token.name f, r + 1, o - token.index (token.lines f) r 0 + 1).
Proof.
  intros Hwf Ho Hne.
  destruct (searchInts_spec (token.lines f) o (wf_increasing f Hwf))
    as (Hr & Hle & Hgt).
  set (r := token.searchInts (token.lines f) o) in *.
  fold (token.LineCount f) in Hr, Hgt.
  assert (H0 : 0 <= r).
  { destruct (Z.lt_ge_cases r 0) as [Hneg|]; auto.
    pose proof (wf_first f Hwf) as Hfirst.
    destruct (token.lines f) as [|x tl] eqn:El; [congruence|]. subst x.
    specialize (Hgt 0). unfold token.LineCount in Hgt. rewrite El in Hgt.
    simpl List.length in Hgt. unfold token.index in Hgt. simpl in Hgt. lia. }
  pose proof (LineCount_bound f Hwf) as Hlc.
  pose proof (line_entry_range f r Hwf ltac:(lia)) as He.
  pose proof (wf_base f Hwf). pose proof (wf_limit f Hwf).
  cbv zeta. split; [lia|]. split; [apply Hle; lia|]. split.
  - intros Hnext. apply Hgt. lia.
  - unfold token.unpack. fold r. simpl andb. cbv iota. cmp_lia.
    specialize (Hle r ltac:(lia)).
    rewrite (add_id r 1) by (apply (wf_is_int f); auto; lia).
    rewrite sub_id by (apply (wf_is_int f); auto; lia).
    rewrite add_id by (apply (wf_is_int f); auto; lia).
    reflexivity.
Qed.

(** The line whose stretch of the file contains an offset is the one
    [searchInts] selects. *)
Lemma searchInts_unique (f : token.File) (o k : Z) :
  wf_File f -> 0 <= k < token.LineCount f ->
  token.index (token.lines f) k 0 <= o ->
  (k + 1 < token.LineCount f -> o < token.index (token.lines f) (k + 1) 0) ->
  token.searchInts (token.lines f) o = k.
Proof.
  intros Hwf Hk Hle Hnext.
  destruct (searchInts_spec (token.lines f) o (wf_increasing f Hwf))
    as (Hr & Hlo & Hhi).
  set (r := token.searchInts (token.lines f) o) in *.
  fold (token.LineCount f) in Hr, Hhi.
  destruct (Z.lt_trichotomy r k) as [Hlt|[Heq|Hgt]]; auto.
  - specialize (Hhi k ltac:(lia)). lia.
  - specialize (Hlo (k + 1) ltac:(lia)). specialize (Hnext ltac:(lia)). lia.
Qed.

Lemma OffsetToLineCol8_inner
  (Position : token.File -> token.Pos -> outcome token.Position)
  (f : token.File) (o : Z) :
  wf_File f -> ignores_directives Position f -> 0 <= o < token.size f ->
  let r := token.searchInts (token.lines f) o in
  0 <= r < token.LineCount f /\
  token.index (token.lines f) r 0 <= o /\
  (r + 1 < token.LineCount f -> o < token.index (token.lines f) (r + 1) 0) /\
  OffsetToLineCol8 Position (Some f) o
  = Ret (r + 1, o - token.index (token.lines f) r 0 + 1, None).
Proof.
  intros Hwf Hplain Ho.
  assert (Hne : token.lines f <> []).
  { intros E. pose proof (wf_first f Hwf) as Hf. rewrite E in Hf. lia. }
  destruct (searchInts_locates f o Hwf ltac:(lia) Hne) as (Hr & Hle & Hnext & Hu).
  cbv zeta. repeat split; try lia; auto.
  unfold OffsetToLineCol8, positionFromOffset. simpl. unfold token.Size. cmp_lia.
  rewrite File_Pos_ok by (auto; lia). simpl.
  rewrite Hplain by (unfold in_file; lia).
  rewrite PositionFor_plain by (auto; lia). rewrite Hu. reflexivity.
Qed.

Lemma OffsetToLineCol8_eof
  (Position : token.File -> token.Pos -> outcome token.Position)
  (f : token.File) :
  wf_File f -> ignores_directives Position f ->
  OffsetToLineCol8 Position (Some f) (token.size f)
  = Ret (token.LineCount f + 1, 1, None).
Proof.
  intros Hwf Hplain. unfold OffsetToLineCol8.
  rewrite positionFromOffset_eof by auto. reflexivity.
Qed.

(** X3. For an offset before the end of a well-formed file,
    [OffsetToLineCol8] reports the existing line whose stretch of the file
    contains the offset (from its start up to the start of the next line, or
    to the end of the file for the last line), and the column is the
    distance from the line's start plus one. *)
Theorem OffsetToLineCol8_locates
  (Position : token.File -> token.Pos -> outcome token.Position)
  (f : token.File) (o : Z) :
  wf_File f -> ignores_directives Position f -> 0 <= o < token.size f ->
  exists line col,
    OffsetToLineCol8 Position (Some f) o = Ret (line, col, None) /\
    1 <= line <= token.LineCount f /\
    1 <= col /\
    token.index (token.lines f) (line - 1) 0 + (col - 1) = o /\
    (line < token.LineCount f -> o < token.index (token.lines f) line 0).
Proof.
  intros Hwf Hplain Ho.
  destruct (OffsetToLineCol8_inner Position f o Hwf Hplain Ho)
    as (Hr & Hle & Hnext & Hres).
  set (r := token.searchInts (token.lines f) o) in *.
  exists (r + 1), (o - token.index (token.lines f) r 0 + 1).
  replace (r + 1 - 1) with r by lia.
  split; [exact Hres|]. split; [lia|]. split; [lia|]. split; [lia|].
  intros Hl. apply Hnext. lia.
Qed.

Lemma OffsetToLineCol8_locates_witness :
  exists line col,
    OffsetToLineCol8 Position_plain (Some file28) 12 = Ret (line, col, None) /\
    1 <= line <= token.LineCount file28 /\
    1 <= col /\
    token.index (token.lines file28) (line - 1) 0 + (col - 1) = 12 /\
    (line < token.LineCount file28 -> 12 < token.index (token.lines file28) line 0).
Proof.
  apply (OffsetToLineCol8_locates Position_plain file28 12).
  - wf_by_computation.
  - plain_by_computation.
  - simpl. lia.
Defined.

(** X4. [OffsetToLineCol8] preserves order: of two offsets of a well-formed
    file, the smaller one gets the smaller (line, column) pair in
    lexicographic order.  In particular no two offsets share a pair. *)
Theorem OffsetToLineCol8_monotone
  (Position : token.File -> token.Pos -> outcome token.Position)
  (f : token.File) (o1 o2 : Z) :
  wf_File f -> ignores_directives Position f ->
  0 <= o1 -> o1 < o2 -> o2 <= token.size f ->
  exists l1 c1 l2 c2,
    OffsetToLineCol8 Position (Some f) o1 = Ret (l1, c1, None) /\
    OffsetToLineCol8 Position (Some f) o2 = Ret (l2, c2, None) /\
    (l1 < l2 \/ (l1 = l2 /\ c1 < c2)).
Proof.
  intros Hwf Hplain H1 H12 H2.
  destruct (OffsetToLineCol8_inner Position f o1 Hwf Hplain ltac:(lia))
    as (Hr1 & Hle1 & Hnext1 & Hres1).
  set (r1 := token.searchInts (token.lines f) o1) in *.
  destruct (Z.eq_dec o2 (token.size f)) as [->|Hne].
  - do 4 eexists. split; [exact Hres1|].
    split; [apply OffsetToLineCol8_eof; auto|]. left. lia.
  - destruct (OffsetToLineCol8_inner Position f o2 Hwf Hplain ltac:(lia))
      as (Hr2 & Hle2 & Hnext2 & Hres2).
    set (r2 := token.searchInts (token.lines f) o2) in *.
    do 4 eexists. split; [exact Hres1|]. split; [exact Hres2|].
    destruct (Z.lt_trichotomy r1 r2) as [Hlt|[Heq|Hgt]].
    + left. lia.
    + right. rewrite Heq. split; [reflexivity|]. lia.
    + exfalso.
      destruct (searchInts_spec (token.lines f) o2 (wf_increasing f Hwf))
        as (_ & _ & Hhi).
      fold r2 in Hhi. fold (token.LineCount f) in Hhi.
      specialize (Hhi r1 ltac:(lia)). lia.
Qed.

Lemma OffsetToLineCol8_monotone_witness :
  exists l1 c1 l2 c2,
    OffsetToLineCol8 Position_plain (Some file28) 12 = Ret (l1, c1, None) /\
    OffsetToLineCol8 Position_plain (Some file28) 13 = Ret (l2, c2, None) /\
    (l1 < l2 \/ (l1 = l2 /\ c1 < c2)).
Proof.
  apply (OffsetToLineCol8_monotone Position_plain file28 12 13).
  - wf_by_computation.
  - plain_by_computation.
  - lia.
  - lia.
  - simpl. lia.
Defined.

(** X5. The round trip in the other direction holds for the coordinates of a
    byte: for an existing line and a column of at least 1 that stays within
    the line (before the next line's start, and before the end of the file),
    [ToOffset] succeeds and [OffsetToLineCol8] of its result is the same
    line and column. *)
Theorem ToOffset_OffsetToLineCol8_roundtrip
  (Position : token.File -> token.Pos -> outcome token.Position)
  (f : token.File) (line col : Z) :
  wf_File f -> ignores_directives Position f ->
  1 <= line <= token.LineCount f -> 1 <= col ->
  token.index (token.lines f) (line - 1) 0 + (col - 1) < token.size f ->
  (line < token.LineCount f ->
   token.index (token.lines f) (line - 1) 0 + (col - 1)
   < token.index (token.lines f) line 0) ->
  exists o,
    ToOffset (Some f) line col = Ret (o, None) /\
    OffsetToLineCol8 Position (Some f) o = Ret (line, col, None).
Proof.
  intros Hwf Hplain Hl Hc Hsize Hnext.
  pose proof (line_entry_range f (line - 1) Hwf ltac:(lia)) as He.
  set (ls := token.index (token.lines f) (line - 1) 0) in *.
  exists (ls + (col - 1)). split.
  - apply ToOffset_line; auto. fold ls. lia.
  - destruct (OffsetToLineCol8_inner Position f (ls + (col - 1)) Hwf Hplain
                ltac:(lia)) as (_ & _ & _ & Hres).
    rewrite Hres.
    rewrite (searchInts_unique f (ls + (col - 1)) (line - 1) Hwf);
      try lia.
    + fold ls. do 3 f_equal; lia.
    + replace (line - 1 + 1) with line by lia. intros H. apply Hnext. lia.
Qed.

Lemma ToOffset_OffsetToLineCol8_roundtrip_witness :
  exists o,
    ToOffset (Some file28) 2 5 = Ret (o, None) /\
    OffsetToLineCol8 Position_plain (Some file28) o = Ret (2, 5, None).
Proof.
  apply (ToOffset_OffsetToLineCol8_roundtrip Position_plain file28 2 5).
  - wf_by_computation.
  - plain_by_computation.
  - unfold token.LineCount; simpl; lia.
  - lia.
  - simpl. lia.
  - unfold token.LineCount; simpl; lia.
Defined.

(** ** [FileSpan] and [Span.Range]: errors instead of panics *)

(** X7. [FileSpan] reports a bad position as an error with the zero Span,
    whatever the helpers are and before any of [span.go]'s runs: an invalid
    start ([NoPos]) even with a nil file; a valid start outside the file; and,
    once the start has resolved, a valid end outside the file. *)
Theorem FileSpan_bad_positions
  (Position : token.File -> token.Pos -> outcome token.Position)
  (URIFromPath : string -> string)
  (point_clean : point -> point) (span_clean : span -> span)
  (WithOffset : Span -> option token.File -> outcome (Span * option error))
  (f : token.File) :
  wf_File f ->
  (forall file end_,
     FileSpan Position URIFromPath point_clean span_clean WithOffset
       file token.NoPos end_
     = Ret (zero_Span, Some ErrStartPosNotValid)) /\
  (forall start end_,
     start <> token.NoPos -> ~ in_file f start ->
     FileSpan Position URIFromPath point_clean span_clean WithOffset
       (Some f) start end_
     = Ret (zero_Span,
            Some (ErrInvalidPos start (token.base f)
                    (token.base f + token.size f)))) /\
  (forall start end_ fn l c,
     in_file f start ->
     position Position (Some f) start = Ret (fn, l, c, None) ->
     end_ <> token.NoPos -> ~ in_file f end_ ->
     FileSpan Position URIFromPath point_clean span_clean WithOffset
       (Some f) start end_
     = Ret (zero_Span,
            Some (ErrInvalidPos end_ (token.base f)
                    (token.base f + token.size f)))).
Proof.
  intros Hwf. pose proof (wf_base f Hwf) as Hb.
  split; [|split].
  - intros file end_. reflexivity.
  - intros start end_ Hs Hout. unfold FileSpan, token.IsValid.
    destruct (Z.eqb_spec start token.NoPos) as [|_]; [contradiction|]. simpl.
    unfold position. rewrite offset_out by auto. reflexivity.
  - intros start end_ fn l c Hin Hps He Hout. unfold FileSpan, token.IsValid.
    destruct (Z.eqb_spec start token.NoPos) as [E|_].
    { unfold in_file, token.NoPos in *. lia. }
    simpl. rewrite Hps. simpl.
    destruct (Z.eqb_spec end_ token.NoPos) as [|_]; [contradiction|]. simpl.
    unfold position at 1. rewrite offset_out by auto. reflexivity.
Qed.

Lemma FileSpan_bad_positions_witness :
  FileSpan Position_plain URIFromPath_unix point_clean span_clean WithOffset
    (Some file10) 100 5
  = Ret (zero_Span, Some (ErrInvalidPos 100 1 11)).
Proof.
  destruct (FileSpan_bad_positions Position_plain URIFromPath_unix
              point_clean span_clean WithOffset file10
              ltac:(wf_by_computation)) as (_ & Hstart & _).
  apply (Hstart 100 5).
  - discriminate.
  - unfold in_file. simpl. lia.
Defined.

(** X8. [Span.Range] itself never panics on a non-nil file: whenever
    [WithOffset] returns and the two offsets can be read, it returns, because
    its two comparisons with the file size keep [token.File.Pos] from
    panicking. *)
Theorem Span_Range_never_panics
  (WithOffset : Span -> option token.File -> outcome (Span * option error))
  (Point_Offset : point -> outcome Z)
  (f : token.File) (s s' : Span) (err : option error) (so eo : Z) :
  WithOffset s (Some f) = Ret (s', err) ->
  Point_Offset (Start (v s')) = Ret so ->
  Point_Offset (End_ (v s')) = Ret eo ->
  exists res, Span_Range WithOffset Point_Offset s (Some f) = Ret res.
Proof.
  intros Hres Hso Heo. unfold Span_Range. rewrite Hres. simpl.
  destruct err as [e|]; [eauto|].
  rewrite Hso. simpl. unfold token.Size.
  destruct (Z.gtb_spec so (token.size f)); [eauto|].
  rewrite Heo. simpl.
  destruct (Z.gtb_spec eo (token.size f)); [eauto|].
  unfold token.File_Pos. cmp_lia. simpl. eauto.
Qed.

Lemma Span_Range_never_panics_witness :
  exists res,
    Span_Range WithOffset Point_Offset span_of_file28 (Some file28) = Ret res.
Proof.
  apply (Span_Range_never_panics WithOffset Point_Offset file28
           span_of_file28 span_of_file28 None 13 19); reflexivity.
Defined.

Lemma Point_Offset_nonneg (p : point) (o : Z) :
  Point_Offset p = Ret o -> 0 <= o.
Proof.
  unfold Point_Offset, hasOffset.
  destruct (Z.geb_spec (Offset p) 0) as [Hge|]; [|discriminate].
  intros Hret; inversion Hret; subst. lia.
Qed.

(** X9. A Range that [Span.Range] returns without error is bound to the file
    it was given and lies within it: on a well-formed file, and with a
    [Point.Offset] that only yields non-negative offsets, both its start and
    its end are positions of the file. *)
Theorem Span_Range_result_in_file
  (WithOffset : Span -> option token.File -> outcome (Span * option error))
  (Point_Offset : point -> outcome Z)
  (f : token.File) (s : Span) (r : Range) :
  wf_File f ->
  (forall p o, Point_Offset p = Ret o -> 0 <= o) ->
  Span_Range WithOffset Point_Offset s (Some f) = Ret (r, None) ->
  TokFile r = Some f /\ in_file f (Range_Start r) /\ in_file f (Range_End r).
Proof.
  intros Hwf Hnonneg. unfold Span_Range.
  destruct (WithOffset s (Some f)) as [[s' [e|]]|msg]; simpl; try discriminate.
  destruct (Point_Offset (Start (v s'))) as [so|msg] eqn:Hso; simpl;
    try discriminate.
  unfold token.Size.
  destruct (Z.gtb_spec so (token.size f)); try discriminate.
  destruct (Point_Offset (End_ (v s'))) as [eo|msg] eqn:Heo; simpl;
    try discriminate.
  destruct (Z.gtb_spec eo (token.size f)); try discriminate.
  pose proof (Hnonneg _ _ Hso). pose proof (Hnonneg _ _ Heo).
  rewrite !File_Pos_ok by (auto; lia). simpl.
  intros Hret; inversion Hret; subst; simpl.
  unfold in_file. repeat split; lia.
Qed.

Lemma Span_Range_result_in_file_witness :
  TokFile (mkRange (Some file28) 14 20) = Some file28 /\
  in_file file28 (Range_Start (mkRange (Some file28) 14 20)) /\
  in_file file28 (Range_End (mkRange (Some file28) 14 20)).
Proof.
  apply (Span_Range_result_in_file WithOffset Point_Offset file28
           span_of_file28 (mkRange (Some file28) 14 20)).
  - wf_by_computation.
  - exact Point_Offset_nonneg.
  - reflexivity.
Defined.

(** ** Point Ranges *)

(** X10. With a valid start, the Range [NewRange] builds on a non-nil file is
    a point exactly when the end it was given is [NoPos] or is the start. *)
Theorem NewRange_IsPoint_iff (f : token.File) (start end_ : token.Pos) :
  token.IsValid start = true ->
  exists r,
    NewRange (Some f) start end_ = Ret r /\
    (IsPoint r = true <-> end_ = token.NoPos \/ end_ = start).
Proof.
  intros Hs. unfold NewRange. rewrite Hs. simpl.
  unfold token.IsValid.
  destruct (Z.eqb_spec end_ token.NoPos) as [He|He]; simpl;
    eexists; (split; [reflexivity|]); unfold IsPoint; simpl.
  - rewrite Z.eqb_refl. tauto.
  - rewrite Z.eqb_eq. split; intros H.
    + right. symmetry. exact H.
    + destruct H as [H|H]; [contradiction|]. symmetry. exact H.
Qed.

Lemma NewRange_IsPoint_iff_witness :
  exists r,
    NewRange (Some file28) 14 20 = Ret r /\
    (IsPoint r = true <-> 20 = token.NoPos \/ 20 = 14).
Proof.
  apply (NewRange_IsPoint_iff file28 14 20). reflexivity.
Defined.

(** ** The Span [FileSpan] builds, with the value model of [span.go] *)

Lemma position_as_OffsetToLineCol8
  (Position : token.File -> token.Pos -> outcome token.Position)
  (f : token.File) (p : token.Pos) (fn : string) (line col : Z) :
  wf_File f -> in_file f p ->
  position Position (Some f) p = Ret (fn, line, col, None) ->
  OffsetToLineCol8 Position (Some f) (p - token.base f) = Ret (line, col, None).
Proof.
  intros Hwf Hin. unfold position. rewrite offset_in by auto. simpl.
  intros Hp. unfold OffsetToLineCol8. rewrite Hp. reflexivity.
Qed.

(** An omitted end: cleaning turns the zero point into a copy of the start,
    and resolving the offsets keeps the two equal. *)
Lemma WithOffset_after_clean_omitted
  (f : token.File) (uri : string) (sl sc so : Z) :
  wf_File f -> 1 <= sl -> 1 <= sc ->
  ToOffset (Some f) sl sc = Ret (so, None) ->
  WithOffset
    (mkSpan (span_clean (mkspan uri (point_clean (mkPoint sl sc 0))
                           (point_clean zero_point))))
    (Some f)
  = Ret (mkSpan (mkspan uri (mkPoint sl sc so) (mkPoint sl sc so)), None).
Proof.
  intros Hwf Hsl Hsc Hso.
  pose proof (ToOffset_1_1 f Hwf) as H11.
  rewrite point_clean_resolved by lia.
  change (point_clean zero_point) with zero_point.
  change (span_clean (mkspan uri ?a zero_point)) with (mkspan uri a a).
  unfold WithOffset, isValid, hasPosition, hasOffset, updateOffset.
  cbn -[Z.eqb Z.gtb Z.geb ToOffset]. cmp_lia. cbn -[Z.eqb ToOffset].
  destruct ((sl =? 1) && (sc =? 1)) eqn:Es; cbn -[Z.eqb ToOffset].
  - apply andb_true_iff in Es. destruct Es as [?%Z.eqb_eq ?%Z.eqb_eq]; subst.
    rewrite H11 in Hso. inversion Hso; subst. reflexivity.
  - rewrite Hso. cbn -[Z.eqb]. rewrite !Z.eqb_refl. reflexivity.
Qed.

(** X11. The Span [FileSpan] returns for a start and an end inside a
    well-formed file is fully resolved and consistent: its URI comes from
    the file's name, each point's offset is its position minus the base, and
    each point's line and column are those [OffsetToLineCol8] reports for
    that offset, from which [ToOffset] finds the offset again. *)
Theorem FileSpan_resolved
  (Position : token.File -> token.Pos -> outcome token.Position)
  (URIFromPath : string -> string)
  (f : token.File) (start end_ : token.Pos) :
  wf_File f -> ignores_directives Position f ->
  in_file f start -> in_file f end_ ->
  exists sl sc el ec,
    FileSpan Position URIFromPath point_clean span_clean WithOffset
      (Some f) start end_
    = Ret (mkSpan (mkspan (URIFromPath (token.name f))
                     (mkPoint sl sc (start - token.base f))
                     (mkPoint el ec (end_ - token.base f))), None) /\
    OffsetToLineCol8 Position (Some f) (start - token.base f) = Ret (sl, sc, None) /\
    OffsetToLineCol8 Position (Some f) (end_ - token.base f) = Ret (el, ec, None) /\
    ToOffset (Some f) sl sc = Ret (start - token.base f, None) /\
    ToOffset (Some f) el ec = Ret (end_ - token.base f, None).
Proof.
  intros Hwf Hplain Hstart Hend.
  pose proof (wf_base f Hwf) as Hb.
  destruct (position_ok Position f start Hwf Hplain Hstart)
    as (sl & sc & Hps & Hsl & Hsc & Hso).
  destruct (position_ok Position f end_ Hwf Hplain Hend)
    as (el & ec & Hpe & Hel & Hec & Heo).
  exists sl, sc, el, ec.
  split; [|split; [|split; [|split]]]; auto.
  - unfold in_file in Hstart, Hend.
    unfold FileSpan, token.IsValid, token.NoPos. cmp_lia. simpl.
    rewrite Hps. simpl. rewrite Hpe. simpl.
    rewrite String.eqb_refl. simpl.
    apply WithOffset_after_clean; auto.
  - eapply position_as_OffsetToLineCol8; eauto.
  - eapply position_as_OffsetToLineCol8; eauto.
Qed.

Lemma FileSpan_resolved_witness :
  exists sl sc el ec,
    FileSpan Position_plain URIFromPath_unix point_clean span_clean WithOffset
      (Some file28) 14 20
    = Ret (mkSpan (mkspan (URIFromPath_unix (token.name file28))
                     (mkPoint sl sc (14 - token.base file28))
                     (mkPoint el ec (20 - token.base file28))), None) /\
    OffsetToLineCol8 Position_plain (Some file28) (14 - token.base file28)
    = Ret (sl, sc, None) /\
    OffsetToLineCol8 Position_plain (Some file28) (20 - token.base file28)
    = Ret (el, ec, None) /\
    ToOffset (Some file28) sl sc = Ret (14 - token.base file28, None) /\
    ToOffset (Some file28) el ec = Ret (20 - token.base file28, None).
Proof.
  apply (FileSpan_resolved Position_plain URIFromPath_unix file28 14 20).
  - wf_by_computation.
  - plain_by_computation.
  - unfold in_file; simpl; lia.
  - unfold in_file; simpl; lia.
Defined.

(** X12. An omitted end gives the point Span at the start: for a start inside
    a well-formed file, [FileSpan] with end [NoPos] returns a Span whose end
    equals its start in every field, the same Span it returns when the end
    is the start itself. *)
Theorem FileSpan_omitted_end
  (Position : token.File -> token.Pos -> outcome token.Position)
  (URIFromPath : string -> string)
  (f : token.File) (start : token.Pos) :
  wf_File f -> ignores_directives Position f -> in_file f start ->
  exists s,
    FileSpan Position URIFromPath point_clean span_clean WithOffset
      (Some f) start token.NoPos = Ret (s, None) /\
    End_ (v s) = Start (v s) /\
    Offset (Start (v s)) = start - token.base f /\
    FileSpan Position URIFromPath point_clean span_clean WithOffset
      (Some f) start start = Ret (s, None).
Proof.
  intros Hwf Hplain Hstart.
  pose proof (wf_base f Hwf) as Hb.
  destruct (position_ok Position f start Hwf Hplain Hstart)
    as (sl & sc & Hps & Hsl & Hsc & Hso).
  unfold in_file in Hstart.
  exists (mkSpan (mkspan (URIFromPath (token.name f))
                    (mkPoint sl sc (start - token.base f))
                    (mkPoint sl sc (start - token.base f)))).
  split; [|split; [|split]]; try reflexivity.
  - unfold FileSpan, token.IsValid, token.NoPos. cmp_lia. simpl.
    rewrite Hps. simpl.
    apply WithOffset_after_clean_omitted; auto.
  - unfold FileSpan, token.IsValid, token.NoPos. cmp_lia. simpl.
    rewrite Hps. simpl. rewrite String.eqb_refl. simpl.
    apply WithOffset_after_clean; auto.
Qed.

Lemma FileSpan_omitted_end_witness :
  exists s,
    FileSpan Position_plain URIFromPath_unix point_clean span_clean WithOffset
      (Some file28) 14 token.NoPos = Ret (s, None) /\
    End_ (v s) = Start (v s) /\
    Offset (Start (v s)) = 14 - token.base file28 /\
    FileSpan Position_plain URIFromPath_unix point_clean span_clean WithOffset
      (Some file28) 14 14 = Ret (s, None).
Proof.
  apply (FileSpan_omitted_end Position_plain URIFromPath_unix file28 14).
  - wf_by_computation.
  - plain_by_computation.
  - unfold in_file; simpl; lia.
Defined.

(** ** The errors of [ToOffset] *)

(** X13. Whenever [ToOffset] returns an error on a non-nil file, the offset
    beside it is [-1] or [0], and the error tells which: [-1] comes with the
    invalid-line, line-beyond-EOF, sentinel-column and line-not-in-file
    errors, [0] with the column-beyond-EOF error and with the error of
    [offset].  This holds for every file, well formed or not. *)
Theorem ToOffset_error_offsets (f : token.File) (line col o : Z) (e : error) :
  ToOffset (Some f) line col = Ret (o, Some e) ->
  (o = -1 /\
   (e = ErrInvalidLine line \/
    e = ErrLineBeyondEOF line (GoInt.add (token.LineCount f) 1) \/
    e = ErrColumnBeyondEOF \/
    e = BugLineNotInFile)) \/
  (o = 0 /\
   (e = ErrToOffsetColumnBeyondEOF col \/
    exists p, e = ErrInvalidPos p (token.Base f)
                    (GoInt.add (token.Base f) (token.Size f)))).
Proof.
  unfold ToOffset.
  destruct (line <? 1).
  { intros Hret; inversion Hret; subst. left. auto. }
  simpl.
  destruct (line >? GoInt.add (token.LineCount f) 1).
  { intros Hret; inversion Hret; subst. left. auto. }
  destruct (line =? GoInt.add (token.LineCount f) 1).
  { destruct (col >? 1); intros Hret; inversion Hret; subst. left. auto. }
  destruct (token.LineStart f line) as [pos|msg]; simpl; [|discriminate].
  destruct (negb (token.IsValid pos)).
  { intros Hret; inversion Hret; subst. left. auto 6. }
  destruct (_ >? _).
  { intros Hret; inversion Hret; subst. right. auto. }
  unfold offset. simpl.
  destruct (_ || _); intros Hret; inversion Hret; subst.
  right. split; [reflexivity|]. right. eauto.
Qed.

Lemma ToOffset_error_offsets_witness :
  (0 = -1 /\
   (ErrToOffsetColumnBeyondEOF 20 = ErrInvalidLine 2 \/
    ErrToOffsetColumnBeyondEOF 20
    = ErrLineBeyondEOF 2 (GoInt.add (token.LineCount file28) 1) \/
    ErrToOffsetColumnBeyondEOF 20 = ErrColumnBeyondEOF \/
    ErrToOffsetColumnBeyondEOF 20 = BugLineNotInFile)) \/
  (0 = 0 /\
   (ErrToOffsetColumnBeyondEOF 20 = ErrToOffsetColumnBeyondEOF 20 \/
    exists p, ErrToOffsetColumnBeyondEOF 20
              = ErrInvalidPos p (token.Base file28)
                  (GoInt.add (token.Base file28) (token.Size file28)))).
Proof.
  apply (ToOffset_error_offsets file28 2 20 0 (ErrToOffsetColumnBeyondEOF 20)).
  reflexivity.
Defined.

(** X14. On a well-formed file [ToOffset] never takes its [bug.Errorf] path:
    [LineStart] is only called on an existing line and the position it
    returns is valid, so no error of [ToOffset] is a bug report. *)
Theorem ToOffset_never_reports_bug (f : token.File) (line col o : Z) (e : error) :
  wf_File f ->
  ToOffset (Some f) line col = Ret (o, Some e) ->
  is_bug e = false.
Proof.
  intros Hwf. pose proof (LineCount_bound f Hwf) as Hlc.
  pose proof (wf_base f Hwf) as Hb.
  unfold ToOffset.
  destruct (Z.ltb_spec line 1) as [|Hl1].
  { intros Hret; inversion Hret; subst. reflexivity. }
  simpl. rewrite lineMax_ok by auto.
  destruct (Z.gtb_spec line (token.LineCount f + 1)) as [|Hl2].
  { intros Hret; inversion Hret; subst. reflexivity. }
  destruct (Z.eqb_spec line (token.LineCount f + 1)) as [|Hl3].
  { destruct (col >? 1); intros Hret; inversion Hret; subst. reflexivity. }
  pose proof (line_entry_range f (line - 1) Hwf ltac:(lia)) as He.
  rewrite LineStart_ok by (auto; lia). simpl.
  unfold token.IsValid, token.NoPos. cmp_lia. simpl.
  destruct (_ <? _).
  { intros Hret; inversion Hret; subst. reflexivity. }
  unfold offset. simpl.
  destruct (_ || _); intros Hret; inversion Hret; subst. reflexivity.
Qed.

Lemma ToOffset_never_reports_bug_witness :
  is_bug (ErrToOffsetColumnBeyondEOF 20) = false.
Proof.
  apply (ToOffset_never_reports_bug file28 2 20 0 (ErrToOffsetColumnBeyondEOF 20)).
  - wf_by_computation.
  - reflexivity.
Defined.
